(** * askpass-http: the prompt discovery and answer relay core

    A shallow embedding of [askpass-http]'s Go source (package [main]) and
    the properties of its prompt registry, answer relay, listener resolver
    and idle handler.

    The program talks to the operating system, to the clock, to the network
    and to a few library functions.  All of these are collected in a record
    [Env]; the program's functions are state-passing functions over a
    [State] that holds the chronological trace of the effects performed so
    far, the number of clock readings taken, and the runtime's timers and
    contexts. *)

From Stdlib Require Import ZArith Lia Ascii.
From stdpp Require Import base option list gmap strings.

Local Open Scope string_scope.
Local Open Scope list_scope.
Local Open Scope Z_scope.

(** ** Values shared with the outside world *)

(** A [time.Time] instant, in nanoseconds since January 1, year 1,
    00:00:00 UTC, so that the zero value [time.Time{}] is [0]. *)
Definition Time := Z.

(** A [time.Duration], in nanoseconds. *)
Definition Duration := Z.

Definition Second : Duration := 1000000000.

Definition Time_IsZero (t : Time) : bool := t =? 0.

(** [t.After(u)] *)
Definition Time_After (t u : Time) : bool := u <? t.

Definition Time_Add (t : Time) (d : Duration) : Time := t + d.

(** [len(s)] *)
Definition len (s : string) : Z := Z.of_nat (String.length s).

(** [strings.CutPrefix(s, prefix)] *)
Fixpoint CutPrefix (s prefix : string) : string * bool :=
  match prefix with
  | EmptyString => (s, true)
  | String p prefix' =>
      match s with
      | EmptyString => (s, false)
      | String c s' =>
          if Ascii.eqb c p then
            match CutPrefix s' prefix' with
            | (after, true) => (after, true)
            | (_, false) => (s, false)
            end
          else (s, false)
      end
  end.

(** [strings.HasPrefix(s, prefix)] *)
Fixpoint HasPrefix (s prefix : string) : bool :=
  match prefix with
  | EmptyString => true
  | String p prefix' =>
      match s with
      | EmptyString => false
      | String c s' => Ascii.eqb c p && HasPrefix s' prefix'
      end
  end.

(** An error value produced outside this program: by the operating system,
    the network stack, [strconv] or the INI library.  It carries its
    message. *)
Inductive ExtError := ExtErr (msg : string).

(** The program's [error] values: its two sentinels, [io.ErrShortWrite],
    errors handed through from outside, and [fmt.Errorf] with a leading
    [%w] verb, which wraps an error and extends its message. *)
Inductive error :=
| ErrMissingKey
| ErrExpired
| io_ErrShortWrite
| External (e : ExtError)
| Errorf_w (wrapped : error) (rest : string).

#[global] Instance ExtError_eq_dec : EqDecision ExtError.
Proof. solve_decision. Defined.

#[global] Instance error_eq_dec : EqDecision error.
Proof. solve_decision. Defined.

(** [errors.Is(err, target)] *)
Fixpoint errors_Is (err target : error) : bool :=
  if decide (err = target) then true
  else match err with
       | Errorf_w wrapped _ => errors_Is wrapped target
       | _ => false
       end.

(** [err.Error()] *)
Fixpoint errString (err : error) : string :=
  match err with
  | ErrMissingKey => "missing key"
  | ErrExpired => "expired"
  | io_ErrShortWrite => "short write"
  | External (ExtErr msg) => msg
  | Errorf_w wrapped rest => errString wrapped +:+ rest
  end.

(** A fallible result. *)
Inductive result (A : Type) :=
| Ok (a : A)
| Err (e : error).
Arguments Ok {A} a.
Arguments Err {A} e.

(** An [fs.DirEntry], as far as the program looks at it. *)
Record DirEntry := { Name : string; IsDir : bool }.

(** A loaded [ini.File]: sections, each with its keys and the values that
    [String()] returns for them. *)
Definition IniFile := gmap string (gmap string string).

(** [f.Section(s).Key(k).String()]: a section or key that is absent reads
    as the empty string. *)
Definition ini_String (f : IniFile) (section key : string) : string :=
  match f !! section with
  | Some sec => default "" (sec !! key)
  | None => ""
  end.

(** A connected socket: its remote address and what a [Write] of a given
    payload returns, the byte count and the error. *)
Record Conn := {
  conn_raddr : string;
  conn_Write : string -> Z * option ExtError
}.

(** A [context.Context], as far as the program builds them. *)
Inductive Context :=
| ctx_WithCancel (id : nat)
| ctx_WithTimeout (deadline : Time).

(** Everything the program does that can be observed from outside. *)
Inductive Event :=
| EvReadDir (dir : string)
| EvLoad (path : string)
| EvLogErr (err : error)
| EvLogStatus (code : Z) (msg : string)
| EvLogIdle (idle grace : Duration)
| EvDial (network address : string)
| EvSetDeadline (raddr : string) (t : Time)
| EvWrite (raddr : string) (payload : string)
| EvClose (raddr : string)
| EvNewFile (fd : Z) (name : string)
| EvFileListener (fd : Z)
| EvFileClose (fd : Z)
| EvListen (network address : string)
| EvShutdown (ctx : Context)
| EvCancel (ctx : nat).

(** The outside world and the command-line flags. *)
Record Env := {
  (* flags *)
  flag_listen : string;
  flag_askDir : string;
  (* os, ini *)
  os_ReadDir : string -> ExtError + list DirEntry;
  ini_Load : string -> ExtError + IniFile;
  (* the n-th reading of the clock *)
  time_clock : nat -> Time;
  (* net *)
  net_Dial : string -> string -> ExtError + Conn;
  net_FileListener : Z -> option ExtError;
  net_Listen : string -> string -> option ExtError;
  srv_Shutdown_result : Context -> option ExtError;
  (* pure library functions *)
  filepath_Join : string -> string -> string;
  time_ParseRFC3339 : string -> option Time;
  Time_String : Time -> string
}.

(** A callback registered with [time.AfterFunc].  The program registers
    one closure only, the idle shutdown of [NewIdleHandler], which captures
    the idle duration and the [cancel] function of a context. *)
Inductive Callback :=
| IdleShutdown (shutdownIdle : Duration) (cancel : nat).

(** A runtime timer: its duration, its callback, and whether it is still
    to expire. *)
Record Timer := { timer_d : Duration; timer_f : Callback; timer_armed : bool }.

Record State := {
  ticks : nat;
  trace : list Event;
  timers : list Timer;
  ctxs : nat
}.

Definition state0 : State :=
  {| ticks := 0; trace := []; timers := []; ctxs := 0 |}.

(** ** The state monad of the program *)

Definition M (A : Type) : Type := State -> A * State.

Definition ret {A} (a : A) : M A := fun s => (a, s).

Definition bind {A B} (m : M A) (k : A -> M B) : M B :=
  fun s => let (a, s') := m s in k a s'.

Declare Scope go_scope.
Delimit Scope go_scope with go.
Notation "x <- m ;; k" := (bind m (fun x => k))
  (at level 100, m at next level, right associativity) : go_scope.
Notation "m ;;; k" := (bind m (fun _ => k))
  (at level 100, right associativity) : go_scope.
Local Open Scope go_scope.

(** The state after one more effect. *)
Definition push (e : Event) (s : State) : State :=
  {| ticks := ticks s; trace := trace s ++ [e];
     timers := timers s; ctxs := ctxs s |}.

(** The state after one more reading of the clock. *)
Definition tick (s : State) : State :=
  {| ticks := S (ticks s); trace := trace s;
     timers := timers s; ctxs := ctxs s |}.

Definition emit (e : Event) : M unit := fun s => (tt, push e s).

(** ** The program *)

(** [const WriteTimeout = 10 * time.Second] *)
Definition WriteTimeout : Duration := 10 * Second.

Record Askpass := {
  Path : string;
  Message : string;
  Icon : string;
  Socket : string;
  NotAfter : Time
}.

(** The zero value of [Askpass]. *)
Definition Askpass_zero : Askpass :=
  {| Path := ""; Message := ""; Icon := ""; Socket := ""; NotAfter := 0 |}.

(** [bytes.Buffer], as the bytes written to it so far. *)
Definition Buffer := string.
Definition Buffer_WriteByte (buf : Buffer) (c : ascii) : Buffer :=
  buf +:+ String c "".
Definition Buffer_WriteString (buf : Buffer) (s : string) : Buffer :=
  buf +:+ s.

(** [type Askers map[string]*Askpass].  The [nil] map that [NewAskers]
    returns when the directory cannot be listed is only ever read, and
    reads like the empty map. *)
Abbreviation Askers := (gmap string Askpass).

(** [func (a Askers) Find(name string) *Askpass] *)
Definition Find (a : Askers) (name : string) : option Askpass :=
  match a !! name with
  | None => None
  | Some ap => Some ap
  end.

(** An [http.Request], as far as [ServePass] looks at it: what
    [r.ParseForm()] returns and the form values it leaves in [r.Form]. *)
Record Request := {
  req_ParseForm : ExtError + gmap string (list string)
}.

(** [r.FormValue(key)] once [r.ParseForm()] has run: the first value of
    the key, the empty string when there is none. *)
Definition FormValue (r : Request) (key : string) : string :=
  match req_ParseForm r with
  | inl _ => ""
  | inr form =>
      match form !! key with
      | Some (v :: _) => v
      | _ => ""
      end
  end.

(** What a handler writes to its [http.ResponseWriter]. *)
Inductive Response :=
| http_Error (code : Z) (body : string)
| http_Redirect (url : string) (code : Z).

Definition StatusSeeOther : Z := 303.
Definition StatusBadRequest : Z := 400.
Definition StatusNotFound : Z := 404.
Definition StatusInternalServerError : Z := 500.

(** [strconv.Atoi] for a 64-bit [int]: an optional sign, then one or more
    decimal digits and nothing else; a value that does not fit is a range
    error.  The [*NumError] is represented by the error it wraps. *)
Definition digit_val (c : ascii) : option Z :=
  let n := Z.of_nat (nat_of_ascii c) in
  if (48 <=? n) && (n <=? 57) then Some (n - 48) else None.

Fixpoint digits_val (s : string) (acc : Z) : option Z :=
  match s with
  | EmptyString => Some acc
  | String c s' =>
      match digit_val c with
      | Some d => digits_val s' (acc * 10 + d)
      | None => None
      end
  end.

Definition ErrSyntax : ExtError := ExtErr "invalid syntax".
Definition ErrRange : ExtError := ExtErr "value out of range".

Definition strconv_Atoi (s : string) : ExtError + Z :=
  let (neg, body) :=
    match s with
    | String "-" s' => (true, s')
    | String "+" s' => (false, s')
    | _ => (false, s)
    end in
  match body with
  | EmptyString => inl ErrSyntax
  | _ =>
      match digits_val body 0 with
      | None => inl ErrSyntax
      | Some n =>
          let v := if neg then - n else n in
          if (- 2 ^ 63 <=? v) && (v <? 2 ^ 63) then inr v else inl ErrRange
      end
  end.

(** A [net.Listener], by the way it was obtained. *)
Inductive net_Listener :=
| FileListener (fd : Z)
| TCPListener (address : string).

(** An [http.Handler]. *)
Definition Handler : Type := Request -> M Response.

(** [const gracePeriod = 30 * time.Second] *)
Definition gracePeriod : Duration := 30 * Second.

(** [context.WithCancel(context.Background())]: a fresh context, named by
    its number. *)
Definition context_WithCancel : M nat :=
  fun s => (ctxs s, {| ticks := ticks s; trace := trace s;
                       timers := timers s; ctxs := S (ctxs s) |}).

(** [time.AfterFunc(d, f)]: a new runtime timer, named by its position. *)
Definition time_AfterFunc (d : Duration) (f : Callback) : M nat :=
  fun s => (length (timers s),
            {| ticks := ticks s; trace := trace s;
               timers := timers s ++
                         [{| timer_d := d; timer_f := f; timer_armed := true |}];
               ctxs := ctxs s |}).

(** [t.Reset(d)] *)
Definition Timer_Reset (t : nat) (d : Duration) : M unit :=
  fun s => (tt, {| ticks := ticks s; trace := trace s;
                   timers := alter (fun tm =>
                                      {| timer_d := d; timer_f := timer_f tm;
                                         timer_armed := true |})
                                   t (timers s);
                   ctxs := ctxs s |}).

Section Program.

Variable E : Env.

(** [time.Now()] *)
Definition time_Now : M Time :=
  fun s => (time_clock E (ticks s), tick s).

(** [log.Println(err)] *)
Definition log_Println (err : error) : M unit := emit (EvLogErr err).

(** [key.MustTime(time.Time{})]: the value parsed as RFC 3339, the default
    when it does not parse. *)
Definition ini_MustTime (f : IniFile) (section key : string) (dflt : Time)
  : Time :=
  default dflt (time_ParseRFC3339 E (ini_String f section key)).

(** [func (a *Askpass) IsExpired() error] *)
Definition IsExpired (a : Askpass) : M (option error) :=
  if Time_IsZero (NotAfter a) then ret None
  else
    now <- time_Now ;;
    if Time_After now (NotAfter a) then
      ret (Some (Errorf_w ErrExpired
                   (": current time (" +:+ Time_String E now +:+
                    ") > NotAfter (" +:+ Time_String E (NotAfter a) +:+ ")")))
    else ret None.

(** The loop of [UnmarshalINI] over its required keys: the error for the
    first one whose value is empty. *)
Fixpoint check_keys (kvs : list (string * string)) : option error :=
  match kvs with
  | [] => None
  | (key, val) :: kvs' =>
      if decide (val = "") then Some (Errorf_w ErrMissingKey (": " +:+ key))
      else check_keys kvs'
  end.

(** [func (a *Askpass) UnmarshalINI(path string) error]: the receiver after
    the call, and the error. *)
Definition UnmarshalINI (a : Askpass) (path : string)
  : M (Askpass * option error) :=
  emit (EvLoad path) ;;;
  match ini_Load E path with
  | inl err => ret (a, Some (External err))
  | inr f =>
      let a' := {| Path := path;
                   Message := ini_String f "Ask" "Message";
                   Icon := ini_String f "Ask" "Icon";
                   Socket := ini_String f "Ask" "Socket";
                   NotAfter := ini_MustTime f "Ask" "NotAfter" 0 |} in
      ret (a', check_keys [("Message", Message a'); ("Socket", Socket a')])
  end.

(** [func (a *Askpass) Answer(s string) error].  The deferred
    [sock.Close()] runs after the result is known, on each path that
    follows the successful [net.Dial]. *)
Definition Answer (a : Askpass) (s : string) : M (option error) :=
  emit (EvDial "unixgram" (Socket a)) ;;;
  match net_Dial E "unixgram" (Socket a) with
  | inl err => ret (Some (External err))
  | inr sock =>
      now <- time_Now ;;
      emit (EvSetDeadline (conn_raddr sock) (Time_Add now WriteTimeout)) ;;;
      let buf := Buffer_WriteString (Buffer_WriteByte "" "+"%char) s in
      emit (EvWrite (conn_raddr sock) buf) ;;;
      let res :=
        match conn_Write sock buf with
        | (n, Some err) => Some (External err)
        | (n, None) => if n <? len s then Some io_ErrShortWrite else None
        end in
      emit (EvClose (conn_raddr sock)) ;;;
      ret res
  end.

(** [func NewAskpass(name string)], returning the pointer or the error. *)
Definition NewAskpass (name : string) : M (result Askpass) :=
  let path := filepath_Join E (flag_askDir E) name in
  r <- UnmarshalINI Askpass_zero path ;;
  match r with
  | (_, Some err) => ret (Err err)
  | (ap, None) =>
      err <- IsExpired ap ;;
      match err with
      | Some err => ret (Err err)
      | None => ret (Ok ap)
      end
  end.

(** The [for _, entry := range d] loop of [NewAskers]. *)
Fixpoint NewAskers_range (d : list DirEntry) (out : Askers) : M Askers :=
  match d with
  | [] => ret out
  | entry :: d' =>
      if HasPrefix (Name entry) "ask." && negb (IsDir entry) then
        r <- NewAskpass (Name entry) ;;
        match r with
        | Err err => log_Println err ;;; NewAskers_range d' out
        | Ok ap => NewAskers_range d' (<[Name entry := ap]> out)
        end
      else NewAskers_range d' out
  end.

(** [func NewAskers() Askers] *)
Definition NewAskers : M Askers :=
  emit (EvReadDir (flag_askDir E)) ;;;
  match os_ReadDir E (flag_askDir E) with
  | inl err => log_Println (External err) ;;; ret ∅
  | inr d => NewAskers_range d ∅
  end.

(** [func Error(w http.ResponseWriter, error string, code int)] *)
Definition Error (error : string) (code : Z) : M Response :=
  emit (EvLogStatus code error) ;;;
  ret (http_Error code error).

(** [func ServePass(w http.ResponseWriter, r *http.Request)] *)
Definition ServePass (r : Request) : M Response :=
  match req_ParseForm r with
  | inl err => Error (errString (External err)) StatusBadRequest
  | inr _ =>
      askers <- NewAskers ;;
      match Find askers (FormValue r "ask") with
      | None => Error "Not found" StatusNotFound
      | Some ap =>
          err <- Answer ap (FormValue r "answer") ;;
          match err with
          | Some err => Error (errString err) StatusInternalServerError
          | None => ret (http_Redirect "/" StatusSeeOther)
          end
      end
  end.

(** [func Listener(addr string) (net.Listener, error)].  The deferred
    [f.Close()] runs after [net.FileListener] has returned.  The
    descriptor is recorded as the number that [strconv.Atoi] gives, which
    is [uintptr(fd)] when it is not negative.  For a negative number
    [os.NewFile] returns no file and [net.FileListener] panics where it
    would build its error: the definition then gives the calls that are
    made, and its result stands for nothing. *)
Definition Listener (addr : string) : M (result net_Listener) :=
  match CutPrefix (flag_listen E) "fd:" with
  | (fdstr, true) =>
      match strconv_Atoi fdstr with
      | inl err => ret (Err (External err))
      | inr fd =>
          emit (EvNewFile fd (flag_listen E)) ;;;
          emit (EvFileListener fd) ;;;
          let res :=
            match net_FileListener E fd with
            | Some err => Err (External err)
            | None => Ok (FileListener fd)
            end in
          emit (EvFileClose fd) ;;;
          ret res
      end
  | (_, false) =>
      emit (EvListen "tcp" addr) ;;;
      match net_Listen E "tcp" addr with
      | Some err => ret (Err (External err))
      | None => ret (Ok (TCPListener addr))
      end
  end.

(** The closure that [NewIdleHandler] hands to [time.AfterFunc], run by the
    runtime when the timer expires. *)
Definition run_Callback (shutdownFunc : Context -> M (option error))
    (f : Callback) : M unit :=
  match f with
  | IdleShutdown shutdownIdle cancel =>
      emit (EvLogIdle shutdownIdle gracePeriod) ;;;
      now <- time_Now ;;
      _ <- shutdownFunc (ctx_WithTimeout (Time_Add now gracePeriod)) ;;
      emit (EvCancel cancel)
  end.

(** [func NewIdleHandler(shutdownIdle, shutdownFunc, handler)
    (idleHandler http.Handler, done <-chan struct{})].  The channel is
    named by the context whose [Done()] it is; [None] is the [nil]
    channel. *)
Definition NewIdleHandler (shutdownIdle : Duration)
    (shutdownFunc : Context -> M (option error)) (handler : Handler)
  : M (Handler * option nat) :=
  if 0 <? shutdownIdle then
    ctx <- context_WithCancel ;;
    t <- time_AfterFunc shutdownIdle (IdleShutdown shutdownIdle ctx) ;;
    ret (fun r => Timer_Reset t shutdownIdle ;;; handler r, Some ctx)
  else ret (handler, None).

(** The timer [t] is no longer to expire. *)
Definition disarm (t : nat) : M unit :=
  fun s => (tt, {| ticks := ticks s; trace := trace s;
                   timers := alter (fun tm =>
                                      {| timer_d := timer_d tm;
                                         timer_f := timer_f tm;
                                         timer_armed := false |})
                                   t (timers s);
                   ctxs := ctxs s |}).

(** The runtime lets timer [t] expire: its callback runs, if there is such
    a timer and it is still to expire. *)
Definition expire (shutdownFunc : Context -> M (option error)) (t : nat)
  : M bool :=
  fun s =>
    match timers s !! t with
    | Some tm =>
        if timer_armed tm then
          (disarm t ;;; run_Callback shutdownFunc (timer_f tm) ;;; ret true) s
        else (false, s)
    | None => (false, s)
    end.

(** [srv.Shutdown], the [shutdownFunc] that [main] passes. *)
Definition srv_Shutdown (ctx : Context) : M (option error) :=
  emit (EvShutdown ctx) ;;;
  ret (External <$> srv_Shutdown_result E ctx).

(** What the runtime does to a server: a request arrives, or it lets a
    timer expire. *)
Inductive Step :=
| Arrive (r : Request)
| Expire (t : nat).

(** The server under a schedule of such steps; the result counts the
    timer callbacks that ran. *)
Fixpoint serve (shutdownFunc : Context -> M (option error)) (h : Handler)
    (sched : list Step) : M nat :=
  match sched with
  | [] => ret 0%nat
  | Arrive r :: sched' => h r ;;; serve shutdownFunc h sched'
  | Expire t :: sched' =>
      fired <- expire shutdownFunc t ;;
      n <- serve shutdownFunc h sched' ;;
      ret (if fired : bool then S n else n)
  end.

(** ** Vocabulary of the properties *)

(** What [UnmarshalINI] makes of the file at [path], whatever the state it
    is called in. *)
Definition parsed (path : string) : Askpass * option error :=
  fst (UnmarshalINI Askpass_zero path state0).

(** The path under which [NewAskpass] looks for the prompt [name]. *)
Definition ask_path (name : string) : string :=
  filepath_Join E (flag_askDir E) name.

(** The state in which the loop of [NewAskers] comes to entry [i] of the
    listing [d], having started on the listing in state [s]. *)
Definition reached (d : list DirEntry) (i : nat) (s : State) : State :=
  snd (NewAskers_range (take i d) ∅ s).

(** The state after the loop has dealt with one entry. *)
Definition after_entry (entry : DirEntry) (s : State) : State :=
  snd (NewAskers_range [entry] ∅ s).

(** The effects [tr] are what happened between the states [s] and [s']. *)
Definition effects_since (s s' : State) (tr : list Event) : Prop :=
  trace s' = trace s ++ tr.

(** An effect of the enumeration: the listing of the directory, the load
    of the file of a listed entry, or a log line. *)
Definition enumeration_effect (e : Event) : Prop :=
  e = EvReadDir (flag_askDir E) \/
  (exists d entry, os_ReadDir E (flag_askDir E) = inr d /\ entry ∈ d /\
                   e = EvLoad (ask_path (Name entry))) \/
  (exists err, e = EvLogErr err).

(** Entry [i] of the listing [d] is a valid prompt [name] with descriptor
    [ap]: it carries the prefix, is not a directory, its file parses to
    [ap], and [ap] has not expired when the loop, started in [s], comes to
    it. *)
Definition valid_at (d : list DirEntry) (s : State) (i : nat)
    (name : string) (ap : Askpass) : Prop :=
  exists entry,
    d !! i = Some entry /\ Name entry = name /\
    HasPrefix name "ask." = true /\ IsDir entry = false /\
    parsed (ask_path name) = (ap, None) /\
    fst (IsExpired ap (reached d i s)) = None.

(** Entry [i] of the listing [d] is a prompt file that is rejected with
    [err] when the loop, started in [s], comes to it. *)
Definition rejected_at (d : list DirEntry) (s : State) (i : nat)
    (name : string) (err : error) : Prop :=
  exists entry,
    d !! i = Some entry /\ Name entry = name /\
    HasPrefix name "ask." = true /\ IsDir entry = false /\
    fst (NewAskpass name (reached d i s)) = Err err.

End Program.

(** The contract of [io.Writer] for a socket: the count lies between zero
    and the length of the payload, and it is short of the payload exactly
    when the write returns an error, the one that made it stop early. *)
Definition Writer_contract (sock : Conn) : Prop :=
  forall p, 0 <= fst (conn_Write sock p) <= len p /\
            (fst (conn_Write sock p) < len p <->
             snd (conn_Write sock p) <> None).

(** The accesses to the filesystem among the effects of a trace. *)
Definition is_fs (e : Event) : bool :=
  match e with
  | EvReadDir _ | EvLoad _ => true
  | _ => false
  end.

Definition fs_events (tr : list Event) : list Event := List.filter is_fs tr.

(** The datagrams written among the effects of a trace. *)
Definition datagrams (tr : list Event) : list (string * string) :=
  omap (fun e => match e with
                 | EvWrite raddr payload => Some (raddr, payload)
                 | _ => None
                 end) tr.

(** ** A concrete world

    The directory of the scenario: one prompt [ask.abc123] asking "Enter
    passphrase" on behalf of [/tmp/test.sock], next to a prompt that lacks
    its socket, one that has expired, a file that does not parse, a
    subdirectory and a file of another name. *)

Definition ini_Ask (kvs : list (string * string)) : IniFile :=
  {[ "Ask" := list_to_map kvs ]}.

Definition test_Load (path : string) : ExtError + IniFile :=
  if decide (path = "/run/systemd/ask-password/ask.abc123") then
    inr (ini_Ask [("Message", "Enter passphrase");
                  ("Socket", "/tmp/test.sock")])
  else if decide (path = "/run/systemd/ask-password/ask.nosock") then
    inr (ini_Ask [("Message", "Enter passphrase")])
  else if decide (path = "/run/systemd/ask-password/ask.old") then
    inr (ini_Ask [("Message", "Enter passphrase");
                  ("Socket", "/tmp/old.sock");
                  ("NotAfter", "T500")])
  else inl (ExtErr "open: no such file or directory").

Definition test_listing : list DirEntry :=
  [ {| Name := "ask.abc123"; IsDir := false |};
    {| Name := "ask.dir"; IsDir := true |};
    {| Name := "ask.garbage"; IsDir := false |};
    {| Name := "ask.nosock"; IsDir := false |};
    {| Name := "ask.old"; IsDir := false |};
    {| Name := "sck.1"; IsDir := false |} ].

Definition test_ReadDir (dir : string) : ExtError + list DirEntry :=
  if decide (dir = "/run/systemd/ask-password") then inr test_listing
  else inl (ExtErr "open: no such file or directory").

(** A socket that takes every datagram whole. *)
Definition test_sock (raddr : string) : Conn :=
  {| conn_raddr := raddr; conn_Write := fun buf => (len buf, None) |}.

(** A socket on which every write runs into the deadline. *)
Definition timeout_sock (raddr : string) : Conn :=
  {| conn_raddr := raddr;
     conn_Write := fun _ => (0, Some (ExtErr "write unixgram: i/o timeout")) |}.

Definition test_Dial (sock : string -> Conn) (network address : string)
  : ExtError + Conn :=
  if decide (address = "/tmp/test.sock") then inr (sock address)
  else inl (ExtErr "dial unixgram: connect: no such file or directory").

Definition test_env_with (listen_flag : string) (sock : string -> Conn)
    (readdir : string -> ExtError + list DirEntry) : Env :=
  {| flag_listen := listen_flag;
     flag_askDir := "/run/systemd/ask-password";
     os_ReadDir := readdir;
     ini_Load := test_Load;
     time_clock := fun _ => 1000;
     net_Dial := test_Dial sock;
     net_FileListener := fun _ => None;
     net_Listen := fun _ _ => None;
     srv_Shutdown_result := fun _ => None;
     filepath_Join := fun dir name => dir +:+ "/" +:+ name;
     time_ParseRFC3339 := fun v => if decide (v = "T500") then Some 500
                                   else None;
     Time_String := fun _ => "T" |}.

Definition test_env : Env := test_env_with "[::]:8080" test_sock test_ReadDir.

Definition timeout_env : Env :=
  test_env_with "[::]:8080" timeout_sock test_ReadDir.

Definition fd_env : Env := test_env_with "fd:3" test_sock test_ReadDir.

Definition nodir_env : Env :=
  test_env_with "[::]:8080" test_sock (fun _ => inl (ExtErr "permission denied")).

Definition post_form (kvs : list (string * string)) : Request :=
  {| req_ParseForm := inr (list_to_map (prod_map id (fun v => [v]) <$> kvs)) |}.

Definition abc123 : Askpass :=
  {| Path := "/run/systemd/ask-password/ask.abc123";
     Message := "Enter passphrase"; Icon := "";
     Socket := "/tmp/test.sock"; NotAfter := 0 |}.

Definition hunter2_post : Request :=
  post_form [("ask", "ask.abc123"); ("answer", "hunter2")].

Definition empty_post : Request := post_form [("ask", "ask.abc123")].

Definition old_post : Request :=
  post_form [("ask", "ask.old"); ("answer", "hunter2")].

Definition bad_post : Request :=
  {| req_ParseForm := inl (ExtErr "invalid URL escape") |}.

Definition traversal_post : Request :=
  post_form [("ask", "../../etc/passwd"); ("answer", "hunter2")].

Definition old : Askpass :=
  {| Path := "/run/systemd/ask-password/ask.old";
     Message := "Enter passphrase"; Icon := "";
     Socket := "/tmp/old.sock"; NotAfter := 500 |}.

(** ** Further vocabulary *)

(** Whether the loop of [NewAskers] takes an entry of the listing for a
    prompt file: the test of its [if]. *)
Definition candidate (entry : DirEntry) : bool :=
  HasPrefix (Name entry) "ask." && negb (IsDir entry).

(** The dials among the effects of a trace, by network and address. *)
Definition dials (tr : list Event) : list (string * string) :=
  omap (fun e => match e with
                 | EvDial network address => Some (network, address)
                 | _ => None
                 end) tr.

(** The calls of the listener resolver among the effects of a trace. *)
Definition adoptions (tr : list Event) : list Z :=
  omap (fun e => match e with
                 | EvFileListener fd => Some fd
                 | _ => None
                 end) tr.

Definition binds (tr : list Event) : list (string * string) :=
  omap (fun e => match e with
                 | EvListen network address => Some (network, address)
                 | _ => None
                 end) tr.

(** The state [s] with the timers [ts] in place of its own. *)
Definition with_timers (ts : list Timer) (s : State) : State :=
  {| ticks := ticks s; trace := trace s; timers := ts; ctxs := ctxs s |}.

(** What [t.Reset(d)] makes of a timer. *)
Definition rearmed (d : Duration) (tm : Timer) : Timer :=
  {| timer_d := d; timer_f := timer_f tm; timer_armed := true |}.

(** A socket that takes part of every datagram and says so. *)
Definition partial_sock (raddr : string) : Conn :=
  {| conn_raddr := raddr;
     conn_Write := fun buf => (len buf - 1, Some (ExtErr "short write")) |}.

(** A world whose clock advances by 300 with every reading. *)
Definition ticking_env : Env :=
  {| flag_listen := "[::]:8080";
     flag_askDir := "/run/systemd/ask-password";
     os_ReadDir := test_ReadDir;
     ini_Load := test_Load;
     time_clock := fun n => 300 * Z.of_nat n;
     net_Dial := test_Dial test_sock;
     net_FileListener := fun _ => None;
     net_Listen := fun _ _ => None;
     srv_Shutdown_result := fun _ => None;
     filepath_Join := fun dir name => dir +:+ "/" +:+ name;
     time_ParseRFC3339 := fun v => if decide (v = "T500") then Some 500
                                   else None;
     Time_String := fun _ => "T" |}.

Definition nosock : Askpass :=
  {| Path := "/run/systemd/ask-password/ask.nosock";
     Message := "Enter passphrase"; Icon := "";
     Socket := ""; NotAfter := 0 |}.

(** ** The registry, said without the program

    What a prompt file describes, which entries have the clock read for
    them, and what makes an entry of the listing a prompt or has it
    refused, in terms of the directory, the files and the clock alone. *)

Section Registry.

Variable E : Env.

(** The descriptor that the loaded prompt file [f] at [path] describes. *)
Definition descriptor_of (path : string) (f : IniFile) : Askpass :=
  {| Path := path;
     Message := ini_String f "Ask" "Message";
     Icon := ini_String f "Ask" "Icon";
     Socket := ini_String f "Ask" "Socket";
     NotAfter := match time_ParseRFC3339 E (ini_String f "Ask" "NotAfter") with
                 | Some t => t
                 | None => 0
                 end |}.

(** Whether an entry of the listing is a prompt file with a message, a
    socket and an expiry time: such entries, and no others, have the
    clock read for them. *)
Definition timed (entry : DirEntry) : bool :=
  candidate entry &&
  match ini_Load E (filepath_Join E (flag_askDir E) (Name entry)) with
  | inl _ => false
  | inr f =>
      if decide (ini_String f "Ask" "Message" = "") then false
      else if decide (ini_String f "Ask" "Socket" = "") then false
      else negb (NotAfter (descriptor_of "" f) =? 0)
  end.

(** The clock reading against which entry [i] of the listing [d] is
    checked in an enumeration that has the clock at its reading number
    [n]: one reading has been taken for every timed entry before it. *)
Definition checked_at (d : list DirEntry) (n : nat) (i : nat) : Time :=
  time_clock E (n + length (List.filter timed (take i d))).

(** Entry [i] of the listing [d] is a prompt [name] with descriptor [ap]:
    it carries the prefix, is not a directory, its file loads with a
    message and a socket and describes [ap], and [ap] has no expiry time
    or one that is not before the clock reading it is checked against. *)
Definition prompt_at (d : list DirEntry) (n : nat) (i : nat)
    (name : string) (ap : Askpass) : Prop :=
  exists entry f,
    d !! i = Some entry /\ Name entry = name /\
    HasPrefix name "ask." = true /\ IsDir entry = false /\
    ini_Load E (filepath_Join E (flag_askDir E) name) = inr f /\
    ini_String f "Ask" "Message" <> "" /\
    ini_String f "Ask" "Socket" <> "" /\
    ap = descriptor_of (filepath_Join E (flag_askDir E) name) f /\
    (NotAfter ap = 0 \/ checked_at d n i <= NotAfter ap).

(** Entry [i] of the listing [d] is a prompt file [name] that is refused
    with [err]: its file does not load, and [err] is the loader's error;
    or it loads without a message or a socket, and [err] is the error for
    the first of them that is missing; or it has both and an expiry time
    before the clock reading it is checked against, and [err] is the
    error for that. *)
Definition refused_at (d : list DirEntry) (n : nat) (i : nat)
    (name : string) (err : error) : Prop :=
  exists entry,
    d !! i = Some entry /\ Name entry = name /\
    HasPrefix name "ask." = true /\ IsDir entry = false /\
    match ini_Load E (filepath_Join E (flag_askDir E) name) with
    | inl e => err = External e
    | inr f =>
        let ap := descriptor_of (filepath_Join E (flag_askDir E) name) f in
        (Message ap = "" /\ err = Errorf_w ErrMissingKey ": Message") \/
        (Message ap <> "" /\ Socket ap = "" /\
         err = Errorf_w ErrMissingKey ": Socket") \/
        (Message ap <> "" /\ Socket ap <> "" /\
         NotAfter ap <> 0 /\ NotAfter ap < checked_at d n i /\
         err = Errorf_w ErrExpired
                 (": current time (" +:+ Time_String E (checked_at d n i) +:+
                  ") > NotAfter (" +:+ Time_String E (NotAfter ap) +:+ ")"))
    end.

End Registry.

(** ** The package builder

    The program of [util/build-deb]: it loads the body of every file of
    the package from the working tree and hands them to [rpmpack].  The
    library and the operating system are a record [World]; the program
    returns the calls it made, in order, and the way it ended. *)

Module BuildDeb.

(** [rpmpack.RPMMetaData], the fields the program sets. *)
Record RPMMetaData := {
  md_Name : string;
  md_Summary : string;
  md_Description : string;
  md_Version : string;
  md_Release : string;
  md_Licence : string;
  md_Requires : list string
}.

(** [rpmpack.RPMFile], the fields the program sets; a [nil] body is
    [None]. *)
Record RPMFile := {
  Name : string;
  Mode : Z;
  Owner : string;
  Group : string;
  Body : option string
}.

Record World := {
  (* time.Now().Format("20060102") when the program starts *)
  today : string;
  os_ReadFile : string -> ExtError + string;
  rpmpack_NewRPM : RPMMetaData -> option ExtError;
  os_Create : string -> option ExtError;
  rpm_Write : option ExtError
}.

Inductive Call :=
| CallNewRPM (md : RPMMetaData)
| CallReadFile (name : string)
| CallAddFile (f : RPMFile)
| CallAddPosttrans (script : string)
| CallAddPreun (script : string)
| CallCreate (name : string)
| CallWrite (name : string)
| CallFatal (err : ExtError).

(** How the program ends: it returns, [log.Fatal] ends it, or it
    panics. *)
Inductive Exit :=
| Returned
| Fatal (err : ExtError)
| Panicked.

(** An octal file mode. *)
Definition octal (u g o : Z) : Z := (u * 8 + g) * 8 + o.

Definition metadata (w : World) : RPMMetaData :=
  {| md_Name := "askpass-http";
     md_Summary := "Askpass HTTP server";
     md_Description :=
       "Lets you unlock your disk from the moon. Roaming charges may apply.";
     md_Version := "0";
     md_Release := "0~" +:+ today w;
     md_Licence := "MIT";
     md_Requires := ["systemd"; "dracut"] |}.

Definition files : list RPMFile :=
  [ {| Name := "/usr/bin/askpass-http";
       Mode := octal 7 5 5; Owner := "root"; Group := "root"; Body := None |};
    {| Name := "/usr/lib/systemd/system/askpass-http.path";
       Mode := octal 6 4 4; Owner := "root"; Group := "root"; Body := None |};
    {| Name := "/usr/lib/systemd/system/askpass-http.socket";
       Mode := octal 6 4 4; Owner := "root"; Group := "root"; Body := None |};
    {| Name := "/usr/lib/systemd/system/askpass-http.service";
       Mode := octal 6 4 4; Owner := "root"; Group := "root"; Body := None |};
    {| Name := "/usr/lib/dracut/modules.d/98askpasshttp/module-setup.sh";
       Mode := octal 7 5 5; Owner := "root"; Group := "root"; Body := None |} ].

Definition rpmFile : string := "askpass-http.rpm".

Definition LF : string := String (ascii_of_nat 10) "".
Definition TAB : string := String (ascii_of_nat 9) "".

Definition posttrans : string :=
  LF +:+ "systemctl daemon-reload" +:+ LF +:+
  "if [[ $1 -ge 1 ]]; then" +:+ LF +:+
  TAB +:+ "dracut -f" +:+ LF +:+
  "fi" +:+ LF.

Definition preun : string :=
  LF +:+ "if [[ $1 == 0 ]]; then" +:+ LF +:+
  "    systemctl disable --now \" +:+ LF +:+
  "        askpass-http.path \" +:+ LF +:+
  "        askpass-http.socket \" +:+ LF +:+
  "        askpass-http.service" +:+ LF +:+
  "    dracut -f" +:+ LF +:+
  "fi".

(** [path.Split]: the directory, with its final slash, and the file after
    it. *)
Fixpoint path_Split_from (s dir file : string) : string * string :=
  match s with
  | EmptyString => (dir, file)
  | String c s' =>
      if Ascii.eqb c "/" then path_Split_from s' (dir +:+ file +:+ "/") ""
      else path_Split_from s' dir (file +:+ String c "")
  end.

Definition path_Split (s : string) : string * string :=
  path_Split_from s "" "".

Definition with_Body (f : RPMFile) (body : string) : RPMFile :=
  {| Name := Name f; Mode := Mode f; Owner := Owner f; Group := Group f;
     Body := Some body |}.

(** The body of the loop of [main] up to [rpm.AddFile]: the file with its
    body loaded, or the way the program ends instead. *)
Definition load (w : World) (f : RPMFile) : list Call * (Exit + RPMFile) :=
  match Body f with
  | Some _ => ([], inr f)
  | None =>
      match Name f with
      | EmptyString => ([], inl Panicked)
      | String c rest =>
          let fname := if Ascii.eqb c "/" then rest else Name f in
          match os_ReadFile w fname with
          | inr body => ([CallReadFile fname], inr (with_Body f body))
          | inl err =>
              let fname2 := snd (path_Split fname) in
              match os_ReadFile w fname2 with
              | inr body =>
                  ([CallReadFile fname; CallReadFile fname2],
                   inr (with_Body f body))
              | inl err2 =>
                  ([CallReadFile fname; CallReadFile fname2; CallFatal err],
                   inl (Fatal err))
              end
          end
      end
  end.

(** The [for _, f := range files] loop of [main]. *)
Fixpoint add_files (w : World) (fs : list RPMFile)
  : list Call * option Exit :=
  match fs with
  | [] => ([], None)
  | f :: fs' =>
      match load w f with
      | (tr, inl exit) => (tr, Some exit)
      | (tr, inr f') =>
          let (tr', exit) := add_files w fs' in
          (tr ++ CallAddFile f' :: tr', exit)
      end
  end.

(** [func main()] *)
Definition main (w : World) : list Call * Exit :=
  match rpmpack_NewRPM w (metadata w) with
  | Some err => ([CallNewRPM (metadata w); CallFatal err], Fatal err)
  | None =>
      match add_files w files with
      | (tr, Some exit) => (CallNewRPM (metadata w) :: tr, exit)
      | (tr, None) =>
          let tr := CallNewRPM (metadata w) :: tr ++
                    [CallAddPosttrans posttrans; CallAddPreun preun;
                     CallCreate rpmFile] in
          match os_Create w rpmFile with
          | Some err => (tr ++ [CallFatal err], Fatal err)
          | None =>
              match rpm_Write w with
              | Some err =>
                  (tr ++ [CallWrite rpmFile; CallFatal err], Fatal err)
              | None => (tr ++ [CallWrite rpmFile], Returned)
              end
          end
      end
  end.

(** The files handed to [rpm.AddFile], and the paths read, among the
    calls of a run. *)
Definition added (tr : list Call) : list RPMFile :=
  omap (fun c => match c with CallAddFile f => Some f | _ => None end) tr.

Definition reads (tr : list Call) : list string :=
  omap (fun c => match c with CallReadFile p => Some p | _ => None end) tr.

(** The path of a file of the package below the working directory, the
    first place where [main] looks for its body, and its base name, the
    second. *)
Definition rel_path (f : RPMFile) : string :=
  match Name f with
  | EmptyString => ""
  | String c rest => if Ascii.eqb c "/" then rest else Name f
  end.

Definition base_name (f : RPMFile) : string := snd (path_Split (rel_path f)).

(** The body that the working tree holds for a file of the package: that
    of its path below the working directory, or else that of its base
    name. *)
Definition in_tree (w : World) (f : RPMFile) (body : string) : Prop :=
  os_ReadFile w (rel_path f) = inr body \/
  ((exists err, os_ReadFile w (rel_path f) = inl err) /\
   os_ReadFile w (base_name f) = inr body).

(** The calls that create and write the package. *)
Definition is_output (c : Call) : bool :=
  match c with
  | CallCreate _ | CallWrite _ => true
  | _ => false
  end.

(** A working tree that holds the program and its units under their base
    names, and the dracut module under its full path. *)
Definition test_tree (name : string) : ExtError + string :=
  if decide (name = "askpass-http") then inr "ELF"
  else if decide (name = "askpass-http.path") then inr "[Path]"
  else if decide (name = "askpass-http.socket") then inr "[Socket]"
  else if decide (name = "askpass-http.service") then inr "[Service]"
  else if decide (name =
                  "usr/lib/dracut/modules.d/98askpasshttp/module-setup.sh")
       then inr "#!/bin/bash"
  else inl (ExtErr ("open " +:+ name +:+ ": no such file or directory")).

Definition test_world : World :=
  {| today := "20240101";
     os_ReadFile := test_tree;
     rpmpack_NewRPM := fun _ => None;
     os_Create := fun _ => None;
     rpm_Write := None |}.

(** The same tree without the socket unit. *)
Definition broken_world : World :=
  {| today := "20240101";
     os_ReadFile := fun name =>
       if decide (name = "askpass-http.socket")
       then inl (ExtErr "open askpass-http.socket: no such file or directory")
       else test_tree name;
     rpmpack_NewRPM := fun _ => None;
     os_Create := fun _ => None;
     rpm_Write := None |}.

End BuildDeb.

(** ** Properties *)

Section Theory.

Variable E : Env.

(** *** How the functions run *)

Lemma bind_run {A B} (m : M A) (k : A -> M B) (s : State) :
  bind m k s = k (fst (m s)) (snd (m s)).
Proof. unfold bind. destruct (m s); reflexivity. Qed.

Lemma IsExpired_run (a : Askpass) (s : State) :
  IsExpired E a s =
  if Time_IsZero (NotAfter a) then (None, s)
  else if Time_After (time_clock E (ticks s)) (NotAfter a)
       then (Some (Errorf_w ErrExpired
                     (": current time (" +:+
                      Time_String E (time_clock E (ticks s)) +:+
                      ") > NotAfter (" +:+
                      Time_String E (NotAfter a) +:+ ")")), tick s)
       else (None, tick s).
Proof.
  unfold IsExpired. destruct (Time_IsZero (NotAfter a)); [reflexivity|].
  rewrite bind_run. unfold time_Now; cbn [fst snd].
  destruct (Time_After _ _); reflexivity.
Qed.

(** The verdict of [IsExpired] depends on the state through the clock
    reading it takes, and on nothing else. *)
Lemma IsExpired_ticks (a : Askpass) (s1 s2 : State) :
  ticks s1 = ticks s2 -> fst (IsExpired E a s1) = fst (IsExpired E a s2).
Proof.
  intros Ht. rewrite !IsExpired_run, Ht.
  destruct (Time_IsZero _); [reflexivity|].
  destruct (Time_After _ _); reflexivity.
Qed.

Lemma IsExpired_None (a : Askpass) (s : State) :
  fst (IsExpired E a s) = None <->
  NotAfter a = 0 \/ time_clock E (ticks s) <= NotAfter a.
Proof.
  rewrite IsExpired_run. unfold Time_IsZero, Time_After.
  destruct (Z.eqb_spec (NotAfter a) 0) as [Hz|Hz].
  - cbn. split; [auto|reflexivity].
  - destruct (Z.ltb_spec (NotAfter a) (time_clock E (ticks s))); cbn.
    + split; [discriminate|]. intros [?|?]; [contradiction|lia].
    + split; [right; assumption|reflexivity].
Qed.

Lemma UnmarshalINI_run (a : Askpass) (path : string) (s : State) :
  UnmarshalINI E a path s =
  (match ini_Load E path with
   | inl err => (a, Some (External err))
   | inr f =>
       let a' := {| Path := path;
                    Message := ini_String f "Ask" "Message";
                    Icon := ini_String f "Ask" "Icon";
                    Socket := ini_String f "Ask" "Socket";
                    NotAfter := ini_MustTime E f "Ask" "NotAfter" 0 |} in
       (a', check_keys [("Message", Message a'); ("Socket", Socket a')])
   end, push (EvLoad path) s).
Proof.
  unfold UnmarshalINI. rewrite bind_run. unfold emit; cbn [fst snd].
  destruct (ini_Load E path); reflexivity.
Qed.

Lemma UnmarshalINI_parsed (path : string) (s : State) :
  UnmarshalINI E Askpass_zero path s = (parsed E path, push (EvLoad path) s).
Proof. unfold parsed. rewrite !UnmarshalINI_run. reflexivity. Qed.

Lemma NewAskpass_run (name : string) (s : State) :
  NewAskpass E name s =
  match parsed E (ask_path E name) with
  | (_, Some err) => (Err err, push (EvLoad (ask_path E name)) s)
  | (ap, None) =>
      match IsExpired E ap (push (EvLoad (ask_path E name)) s) with
      | (Some err, s') => (Err err, s')
      | (None, s') => (Ok ap, s')
      end
  end.
Proof.
  unfold NewAskpass. rewrite bind_run, UnmarshalINI_parsed. cbn [fst snd].
  fold (ask_path E name).
  destruct (parsed E (ask_path E name)) as [ap [err|]]; [reflexivity|].
  rewrite bind_run. destruct (IsExpired E ap _) as [[err|] s']; reflexivity.
Qed.

(** A descriptor comes out of [NewAskpass] exactly when its file parses
    and it has not expired at the clock reading of the call. *)
Lemma NewAskpass_Ok (name : string) (s : State) (ap : Askpass) :
  fst (NewAskpass E name s) = Ok ap <->
  parsed E (ask_path E name) = (ap, None) /\ fst (IsExpired E ap s) = None.
Proof.
  rewrite NewAskpass_run.
  destruct (parsed E (ask_path E name)) as [ap' [err|]].
  - cbn. split; [discriminate|]. intros [? _]; discriminate.
  - rewrite (IsExpired_ticks ap s (push (EvLoad (ask_path E name)) s))
      by reflexivity.
    destruct (IsExpired E ap' _) as [[err|] s'] eqn:Hx; cbn [fst].
    + split; [discriminate|]. intros [[= ->] Hn].
      rewrite Hx in Hn. discriminate.
    + split.
      * intros [= ->]. rewrite Hx. auto.
      * intros [[= ->] _]. reflexivity.
Qed.

(** *** The loop of [NewAskers] *)

Lemma NewAskers_range_cons (entry : DirEntry) (d : list DirEntry)
    (out : Askers) (s : State) :
  NewAskers_range E (entry :: d) out s =
  if HasPrefix (Name entry) "ask." && negb (IsDir entry) then
    match NewAskpass E (Name entry) s with
    | (Err err, s') => NewAskers_range E d out (push (EvLogErr err) s')
    | (Ok ap, s') => NewAskers_range E d (<[Name entry := ap]> out) s'
    end
  else NewAskers_range E d out s.
Proof.
  cbn [NewAskers_range].
  destruct (HasPrefix _ _ && negb _); [|reflexivity].
  rewrite bind_run.
  destruct (NewAskpass E (Name entry) s) as [[ap|err] s']; cbn [fst snd];
    [reflexivity|].
  rewrite bind_run. reflexivity.
Qed.

(** The effects of the loop do not depend on the map it fills. *)
Lemma NewAskers_range_state (d : list DirEntry) (out1 out2 : Askers)
    (s : State) :
  snd (NewAskers_range E d out1 s) = snd (NewAskers_range E d out2 s).
Proof.
  revert out1 out2 s. induction d as [|entry d IH]; intros out1 out2 s.
  - reflexivity.
  - rewrite !NewAskers_range_cons.
    destruct (HasPrefix _ _ && negb _); [|apply IH].
    destruct (NewAskpass E (Name entry) s) as [[ap|err] s']; apply IH.
Qed.

Lemma after_entry_ticks (entry : DirEntry) (s : State) :
  (ticks s <= ticks (after_entry E entry s))%nat.
Proof.
  unfold after_entry. rewrite NewAskers_range_cons.
  destruct (HasPrefix _ _ && negb _); [|cbn; lia].
  rewrite NewAskpass_run.
  destruct (parsed E _) as [ap [err|]]; [cbn; lia|].
  rewrite IsExpired_run.
  destruct (Time_IsZero _); [cbn; lia|].
  destruct (Time_After _ _); cbn; lia.
Qed.

Lemma NewAskers_range_step (entry : DirEntry) (d : list DirEntry)
    (out : Askers) (s : State) :
  snd (NewAskers_range E (entry :: d) out s) =
  snd (NewAskers_range E d out (after_entry E entry s)).
Proof.
  unfold after_entry. rewrite !NewAskers_range_cons.
  destruct (HasPrefix _ _ && negb _); [|reflexivity].
  destruct (NewAskpass E (Name entry) s) as [[ap|err] s']; cbn [NewAskers_range];
    [apply NewAskers_range_state | reflexivity].
Qed.

Lemma reached_0 (d : list DirEntry) (s : State) : reached E d 0 s = s.
Proof. unfold reached. rewrite take_0. reflexivity. Qed.

Lemma reached_S (entry : DirEntry) (d : list DirEntry) (i : nat) (s : State) :
  reached E (entry :: d) (S i) s = reached E d i (after_entry E entry s).
Proof. unfold reached. cbn [take]. apply NewAskers_range_step. Qed.

Lemma NewAskers_range_ticks (d : list DirEntry) (out : Askers) (s : State) :
  (ticks s <= ticks (snd (NewAskers_range E d out s)))%nat.
Proof.
  revert out s. induction d as [|entry d IH]; intros out s.
  - cbn. lia.
  - rewrite NewAskers_range_step.
    etransitivity; [apply after_entry_ticks|apply IH].
Qed.

(** What the loop does with an entry it finds valid, and with one it
    does not. *)
Lemma NewAskers_range_valid (entry : DirEntry) (d : list DirEntry)
    (out : Askers) (s : State) (ap : Askpass) :
  HasPrefix (Name entry) "ask." = true -> IsDir entry = false ->
  fst (NewAskpass E (Name entry) s) = Ok ap ->
  fst (NewAskers_range E (entry :: d) out s) =
  fst (NewAskers_range E d (<[Name entry := ap]> out) (after_entry E entry s)).
Proof.
  intros Hp Hd Hok. unfold after_entry. rewrite !NewAskers_range_cons.
  rewrite Hp, Hd. cbn [negb andb].
  destruct (NewAskpass E (Name entry) s) as [[ap'|err] s']; cbn in Hok;
    [|discriminate].
  injection Hok as ->. reflexivity.
Qed.

Lemma NewAskers_range_skip (entry : DirEntry) (d : list DirEntry)
    (out : Askers) (s : State) :
  (HasPrefix (Name entry) "ask." = true -> IsDir entry = false ->
   forall ap, fst (NewAskpass E (Name entry) s) <> Ok ap) ->
  fst (NewAskers_range E (entry :: d) out s) =
  fst (NewAskers_range E d out (after_entry E entry s)).
Proof.
  intros Hno. unfold after_entry. rewrite !NewAskers_range_cons.
  destruct (HasPrefix _ _) eqn:Hp; [|reflexivity].
  destruct (IsDir entry) eqn:Hd; [reflexivity|]. cbn [negb andb].
  destruct (NewAskpass E (Name entry) s) as [[ap|err] s'] eqn:Hn.
  - exfalso. apply (Hno eq_refl eq_refl ap). reflexivity.
  - reflexivity.
Qed.

(** An entry already in the map stays, as long as it is what its file
    parses to. *)
Lemma NewAskers_range_keeps (d : list DirEntry) (out : Askers) (s : State)
    (name : string) (ap : Askpass) :
  out !! name = Some ap -> fst (parsed E (ask_path E name)) = ap ->
  fst (NewAskers_range E d out s) !! name = Some ap.
Proof.
  revert out s. induction d as [|entry d IH]; intros out s Hout Hp.
  - exact Hout.
  - rewrite NewAskers_range_cons.
    destruct (HasPrefix _ _ && negb _); [|apply IH; assumption].
    destruct (NewAskpass E (Name entry) s) as [[ap'|err] s'] eqn:Hn;
      [|apply IH; assumption].
    apply IH; [|assumption].
    destruct (decide (Name entry = name)) as [<-|Hne].
    + assert (Hok : fst (NewAskpass E (Name entry) s) = Ok ap')
        by (rewrite Hn; reflexivity).
      apply NewAskpass_Ok in Hok as [Hpar _]. rewrite Hpar in Hp.
      cbn in Hp. subst ap'. apply lookup_insert_eq.
    + rewrite lookup_insert_ne by assumption. exact Hout.
Qed.

Lemma NewAskers_range_sound (d : list DirEntry) (out : Askers) (s : State)
    (name : string) (ap : Askpass) :
  fst (NewAskers_range E d out s) !! name = Some ap ->
  out !! name = Some ap \/ exists i, valid_at E d s i name ap.
Proof.
  revert out s. induction d as [|entry d IH]; intros out s Hl.
  - left. exact Hl.
  - rewrite NewAskers_range_cons in Hl.
    assert (Hlift : forall i, valid_at E d (after_entry E entry s) i name ap ->
                              valid_at E (entry :: d) s (S i) name ap).
    { intros i (e & He & Hrest). exists e. rewrite reached_S.
      split; [exact He|exact Hrest]. }
    destruct (HasPrefix (Name entry) "ask.") eqn:Hp; cbn [andb] in Hl.
    2:{ assert (Hs : after_entry E entry s = s).
        { unfold after_entry. rewrite NewAskers_range_cons, Hp. reflexivity. }
        destruct (IH _ _ Hl) as [?|[i Hi]]; [left; assumption|].
        right. exists (S i). apply Hlift. rewrite Hs. exact Hi. }
    destruct (IsDir entry) eqn:Hd; cbn [negb] in Hl.
    { assert (Hs : after_entry E entry s = s).
      { unfold after_entry. rewrite NewAskers_range_cons, Hp, Hd. reflexivity. }
      destruct (IH _ _ Hl) as [?|[i Hi]]; [left; assumption|].
      right. exists (S i). apply Hlift. rewrite Hs. exact Hi. }
    destruct (NewAskpass E (Name entry) s) as [[ap'|err] s'] eqn:Hn.
    + assert (Hs : after_entry E entry s = s').
      { unfold after_entry. rewrite NewAskers_range_cons, Hp, Hd, Hn.
        reflexivity. }
      destruct (IH _ _ Hl) as [Hin|[i Hi]].
      * destruct (decide (Name entry = name)) as [Heq|Hne].
        -- rewrite Heq, lookup_insert_eq in Hin. injection Hin as ->.
           right. exists 0%nat, entry. rewrite reached_0.
           assert (Hok : fst (NewAskpass E (Name entry) s) = Ok ap)
             by (rewrite Hn; reflexivity).
           apply NewAskpass_Ok in Hok as [Hpar Hexp]. rewrite Heq in *.
           repeat split; assumption.
        -- rewrite lookup_insert_ne in Hin by assumption. left. exact Hin.
      * right. exists (S i). apply Hlift. rewrite Hs. exact Hi.
    + assert (Hs : after_entry E entry s = push (EvLogErr err) s').
      { unfold after_entry. rewrite NewAskers_range_cons, Hp, Hd, Hn.
        reflexivity. }
      destruct (IH _ _ Hl) as [?|[i Hi]]; [left; assumption|].
      right. exists (S i). apply Hlift. rewrite Hs. exact Hi.
Qed.

Lemma NewAskers_range_complete (d : list DirEntry) (out : Askers)
    (s : State) (i : nat) (name : string) (ap : Askpass) :
  valid_at E d s i name ap ->
  fst (NewAskers_range E d out s) !! name = Some ap.
Proof.
  revert d out s. induction i as [|i IH]; intros d out s (e & He & Hv).
  - destruct d as [|entry d]; [discriminate|]. injection He as ->.
    destruct Hv as (<- & Hp & Hd & Hpar & Hexp). rewrite reached_0 in Hexp.
    rewrite (NewAskers_range_valid _ _ _ _ ap Hp Hd)
      by (apply NewAskpass_Ok; auto).
    apply NewAskers_range_keeps; [apply lookup_insert_eq|].
    rewrite Hpar. reflexivity.
  - destruct d as [|entry d]; [discriminate|]. cbn in He.
    rewrite reached_S in Hv.
    assert (Hi : valid_at E d (after_entry E entry s) i name ap)
      by (exists e; auto).
    destruct (HasPrefix (Name entry) "ask.") eqn:Hp.
    2:{ rewrite NewAskers_range_skip by (intros; congruence).
        apply IH; assumption. }
    destruct (IsDir entry) eqn:Hd.
    { rewrite NewAskers_range_skip by (intros; congruence).
      apply IH; assumption. }
    destruct (fst (NewAskpass E (Name entry) s)) as [ap'|err] eqn:Hn.
    + rewrite (NewAskers_range_valid _ _ _ _ ap' Hp Hd Hn).
      apply IH; assumption.
    + rewrite NewAskers_range_skip by (intros; congruence).
      apply IH; assumption.
Qed.

(** *** Effects *)

Lemma effects_since_refl (s : State) : effects_since s s [].
Proof. unfold effects_since. rewrite app_nil_r. reflexivity. Qed.

Lemma effects_since_trans (s1 s2 s3 : State) (tr1 tr2 : list Event) :
  effects_since s1 s2 tr1 -> effects_since s2 s3 tr2 ->
  effects_since s1 s3 (tr1 ++ tr2).
Proof.
  unfold effects_since. intros H1 H2. rewrite H2, H1, app_assoc. reflexivity.
Qed.

Lemma IsExpired_trace (a : Askpass) (s : State) :
  trace (snd (IsExpired E a s)) = trace s.
Proof.
  rewrite IsExpired_run. destruct (Time_IsZero _); [reflexivity|].
  destruct (Time_After _ _); reflexivity.
Qed.

Lemma IsExpired_timers (a : Askpass) (s : State) :
  timers (snd (IsExpired E a s)) = timers s.
Proof.
  rewrite IsExpired_run. destruct (Time_IsZero _); [reflexivity|].
  destruct (Time_After _ _); reflexivity.
Qed.

(** [NewAskpass] touches the filesystem once, at the path of the entry. *)
Lemma NewAskpass_effects (name : string) (s : State) :
  effects_since s (snd (NewAskpass E name s)) [EvLoad (ask_path E name)].
Proof.
  unfold effects_since. rewrite NewAskpass_run.
  destruct (parsed E _) as [ap [err|]]; [reflexivity|].
  pose proof (IsExpired_trace ap (push (EvLoad (ask_path E name)) s)) as Ht.
  destruct (IsExpired E ap _) as [[err|] s']; exact Ht.
Qed.

(** The loop, at one entry: it passes over it, or loads its file and keeps
    the descriptor, or loads its file and logs why it does not. *)
Lemma after_entry_effects (entry : DirEntry) (s : State) :
  (HasPrefix (Name entry) "ask." && negb (IsDir entry) = false /\
   after_entry E entry s = s) \/
  (HasPrefix (Name entry) "ask." = true /\ IsDir entry = false /\
   ((exists ap, fst (NewAskpass E (Name entry) s) = Ok ap /\
       effects_since s (after_entry E entry s)
         [EvLoad (ask_path E (Name entry))]) \/
    (exists err, fst (NewAskpass E (Name entry) s) = Err err /\
       effects_since s (after_entry E entry s)
         [EvLoad (ask_path E (Name entry)); EvLogErr err]))).
Proof.
  unfold after_entry. rewrite NewAskers_range_cons.
  destruct (HasPrefix (Name entry) "ask.") eqn:Hp; [|left; auto].
  destruct (IsDir entry) eqn:Hd; [left; auto|]. cbn [negb andb].
  right. do 2 (split; [reflexivity|]).
  pose proof (NewAskpass_effects (Name entry) s) as He.
  destruct (NewAskpass E (Name entry) s) as [[ap|err] s']; cbn [fst snd] in *.
  - left. exists ap. auto.
  - right. exists err. split; [reflexivity|].
    unfold effects_since in *. cbn. rewrite He, <- app_assoc. reflexivity.
Qed.

(** The effects of the whole loop: nothing but loads of the files of
    listed entries, and log lines. *)
Lemma NewAskers_range_effects (d : list DirEntry) (out : Askers) (s : State) :
  exists tr,
    effects_since s (snd (NewAskers_range E d out s)) tr /\
    Forall (fun e => (exists entry, entry ∈ d /\
                                    e = EvLoad (ask_path E (Name entry))) \/
                     (exists err, e = EvLogErr err)) tr.
Proof.
  revert out s. induction d as [|entry d IH]; intros out s.
  - exists []. split; [apply effects_since_refl|constructor].
  - rewrite NewAskers_range_step.
    destruct (IH out (after_entry E entry s)) as (tr2 & H2 & F2).
    assert (F2' : Forall (fun e =>
              (exists entry0, entry0 ∈ entry :: d /\
                              e = EvLoad (ask_path E (Name entry0))) \/
              (exists err, e = EvLogErr err)) tr2).
    { eapply Forall_impl; [exact F2|]. cbn.
      intros e [(e0 & Hin & ->)|Hlog]; [left|right; exact Hlog].
      exists e0. split; [right; exact Hin|reflexivity]. }
    assert (Hload : exists entry0, entry0 ∈ entry :: d /\
              EvLoad (ask_path E (Name entry)) =
              EvLoad (ask_path E (Name entry0))).
    { exists entry. split; [left|reflexivity]. }
    destruct (after_entry_effects entry s)
      as [[_ Hs]|(_ & _ & [(ap & _ & H1)|(err & _ & H1)])].
    + rewrite Hs in *. exists tr2. auto.
    + eexists. split; [eapply effects_since_trans; eassumption|].
      apply Forall_app. split; [|exact F2'].
      constructor; [left; exact Hload|constructor].
    + eexists. split; [eapply effects_since_trans; eassumption|].
      apply Forall_app. split; [|exact F2'].
      constructor; [left; exact Hload|].
      constructor; [right; eauto|constructor].
Qed.

(** Every prompt file the loop rejects leaves its log line. *)
Lemma NewAskers_range_logs (d : list DirEntry) (out : Askers) (s : State)
    (i : nat) (name : string) (err : error) :
  rejected_at E d s i name err ->
  exists tr, effects_since s (snd (NewAskers_range E d out s)) tr /\
             EvLogErr err ∈ tr.
Proof.
  revert d out s. induction i as [|i IH]; intros d out s (e & He & Hr).
  - destruct d as [|entry d]; [discriminate|]. injection He as <-.
    destruct Hr as (<- & Hp & Hd & Hn). rewrite reached_0 in Hn.
    rewrite NewAskers_range_step.
    destruct (NewAskers_range_effects d out (after_entry E entry s))
      as (tr2 & H2 & _).
    destruct (after_entry_effects entry s)
      as [[Hc _]|(_ & _ & [(ap & Hok & _)|(err' & Herr & H1)])].
    + rewrite Hp, Hd in Hc. discriminate.
    + congruence.
    + assert (err' = err) as -> by congruence.
      eexists. split; [eapply effects_since_trans; eassumption|].
      apply elem_of_app. left. right. left.
  - destruct d as [|entry d]; [discriminate|]. cbn in He.
    rewrite reached_S in Hr. rewrite NewAskers_range_step.
    destruct (IH d out (after_entry E entry s)) as (tr2 & H2 & Hin).
    { exists e. auto. }
    assert (exists tr1, effects_since s (after_entry E entry s) tr1)
      as [tr1 H1].
    { destruct (after_entry_effects entry s)
        as [[_ Hs]|(_ & _ & [(? & _ & H1)|(? & _ & H1)])]; eauto.
      rewrite Hs. eexists. apply effects_since_refl. }
    eexists. split; [eapply effects_since_trans; eassumption|].
    apply elem_of_app. right. exact Hin.
Qed.

(** *** [NewAskers] *)

Lemma NewAskers_run (s : State) :
  NewAskers E s =
  match os_ReadDir E (flag_askDir E) with
  | inl err => (∅, push (EvLogErr (External err))
                     (push (EvReadDir (flag_askDir E)) s))
  | inr d => NewAskers_range E d ∅ (push (EvReadDir (flag_askDir E)) s)
  end.
Proof.
  unfold NewAskers. rewrite bind_run. unfold emit; cbn [fst snd].
  destruct (os_ReadDir E (flag_askDir E)); reflexivity.
Qed.

Lemma parsed_Path (path : string) (ap : Askpass) :
  parsed E path = (ap, None) -> Path ap = path.
Proof.
  unfold parsed. rewrite UnmarshalINI_run. cbn [fst].
  destruct (ini_Load E path); [discriminate|].
  intros [= <- _]. reflexivity.
Qed.

(** A descriptor with an expiry time that the loop keeps has had the clock
    read for it, before the loop ends. *)
Lemma valid_at_ticks (d : list DirEntry) (out : Askers) (s : State)
    (i : nat) (name : string) (ap : Askpass) :
  valid_at E d s i name ap -> NotAfter ap <> 0 ->
  (ticks s <= ticks (reached E d i s)
           < ticks (snd (NewAskers_range E d out s)))%nat.
Proof.
  revert d out s. induction i as [|i IH]; intros d out s (e & He & Hv) Hna.
  - destruct d as [|entry d]; [discriminate|]. injection He as <-.
    destruct Hv as (<- & Hp & Hd & Hpar & Hexp).
    rewrite reached_0 in *. split; [lia|].
    rewrite NewAskers_range_step.
    eapply Nat.lt_le_trans; [|apply NewAskers_range_ticks].
    unfold after_entry. rewrite NewAskers_range_cons, Hp, Hd.
    cbn [negb andb]. rewrite NewAskpass_run, Hpar, IsExpired_run.
    rewrite (IsExpired_ticks ap s (push (EvLoad (ask_path E (Name entry))) s)),
      IsExpired_run in Hexp by reflexivity.
    unfold Time_IsZero in *.
    destruct (Z.eqb_spec (NotAfter ap) 0); [contradiction|].
    destruct (Time_After _ _); [discriminate|]. cbn. lia.
  - destruct d as [|entry d]; [discriminate|]. cbn in He.
    rewrite reached_S in *. rewrite NewAskers_range_step.
    destruct (IH d out (after_entry E entry s)) as [H1 H2];
      [exists e; auto|assumption|].
    pose proof (after_entry_ticks entry s). lia.
Qed.

(** What is in a registry is a valid entry of the listing it was built
    from, and the other way round. *)
Lemma NewAskers_lookup (s : State) (name : string) (ap : Askpass) :
  fst (NewAskers E s) !! name = Some ap <->
  exists (d : list DirEntry) (i : nat),
    os_ReadDir E (flag_askDir E) = inr d /\
    valid_at E d (push (EvReadDir (flag_askDir E)) s) i name ap.
Proof.
  rewrite NewAskers_run.
  destruct (os_ReadDir E (flag_askDir E)) as [err|d].
  - cbn [fst]. rewrite lookup_empty. split; [discriminate|].
    intros (d & i & Hd & _). discriminate.
  - split.
    + intros Hl. apply NewAskers_range_sound in Hl as [Hl|[i Hi]].
      * rewrite lookup_empty in Hl. discriminate.
      * exists d, i. auto.
    + intros (d' & i & [= <-] & Hi).
      eapply NewAskers_range_complete; exact Hi.
Qed.

(** *** Descriptor files with a missing key *)

Lemma check_keys_missing (msg sock : string) :
  msg = "" \/ sock = "" ->
  exists key, (key = "Message" \/ key = "Socket") /\
    check_keys [("Message", msg); ("Socket", sock)] =
    Some (Errorf_w ErrMissingKey (": " +:+ key)).
Proof.
  intros Hm. cbn [check_keys].
  destruct (decide (msg = "")); [exists "Message"; auto|].
  destruct (decide (sock = "")); [exists "Socket"; auto|].
  destruct Hm; contradiction.
Qed.

Lemma check_keys_present (msg sock : string) :
  msg <> "" -> sock <> "" ->
  check_keys [("Message", msg); ("Socket", sock)] = None.
Proof.
  intros Hm Hs. cbn [check_keys].
  destruct (decide (msg = "")); [contradiction|].
  destruct (decide (sock = "")); [contradiction|reflexivity].
Qed.

(** No registry holds a name whose file does not parse. *)
Lemma NewAskers_parse_error (name : string) (err : error) (s : State) :
  snd (parsed E (ask_path E name)) = Some err ->
  fst (NewAskers E s) !! name = None.
Proof.
  intros Hp. destruct (fst (NewAskers E s) !! name) as [ap|] eqn:Hl;
    [|reflexivity].
  apply NewAskers_lookup in Hl as (d & i & _ & e & _ & _ & _ & _ & Hpar & _).
  rewrite Hpar in Hp. discriminate.
Qed.

(** C7. A descriptor file that loads as an INI file but whose [Message] or
    [Socket] value is empty makes [UnmarshalINI] fail with an error that
    wraps [ErrMissingKey] and names the first such key; an error is of
    that kind only then, the error for a file that does not load being the
    loader's own, which [errors.Is] tells apart from [ErrMissingKey]; and
    no registry holds the name of such a file. *)
Theorem UnmarshalINI_missing_key (a : Askpass) (path : string) (f : IniFile)
    (s : State) :
  ini_Load E path = inr f ->
  ini_String f "Ask" "Message" = "" \/ ini_String f "Ask" "Socket" = "" ->
  (exists key,
     (key = "Message" \/ key = "Socket") /\
     snd (fst (UnmarshalINI E a path s)) =
     Some (Errorf_w ErrMissingKey (": " +:+ key)) /\
     errors_Is (Errorf_w ErrMissingKey (": " +:+ key)) ErrMissingKey = true) /\
  (forall a' path' s' err,
     snd (fst (UnmarshalINI E a' path' s')) = Some err ->
     match ini_Load E path' with
     | inl e => err = External e /\ errors_Is err ErrMissingKey = false
     | inr f' => errors_Is err ErrMissingKey = true /\
                 (ini_String f' "Ask" "Message" = "" \/
                  ini_String f' "Ask" "Socket" = "")
     end) /\
  (forall name s',
     path = ask_path E name -> fst (NewAskers E s') !! name = None).
Proof.
  intros Hload Hmiss. repeat split.
  - destruct (check_keys_missing _ _ Hmiss) as (key & Hkey & Hck).
    exists key. split; [exact Hkey|]. split; [|reflexivity].
    rewrite UnmarshalINI_run, Hload. cbn [fst snd Message Socket].
    exact Hck.
  - intros a' path' s' err. rewrite UnmarshalINI_run.
    destruct (ini_Load E path') as [e|f']; cbn [fst snd Message Socket].
    + intros [= <-]. split; reflexivity.
    + intros Hck.
      destruct (decide (ini_String f' "Ask" "Message" = "")) as [Hm|Hm].
      { destruct (check_keys_missing _ (ini_String f' "Ask" "Socket")
                    (or_introl Hm)) as (key & _ & Hk).
        rewrite Hk in Hck. injection Hck as <-. split; [reflexivity|auto]. }
      destruct (decide (ini_String f' "Ask" "Socket" = "")) as [Hs|Hs].
      { destruct (check_keys_missing (ini_String f' "Ask" "Message") _
                    (or_intror Hs)) as (key & _ & Hk).
        rewrite Hk in Hck. injection Hck as <-. split; [reflexivity|auto]. }
      rewrite check_keys_present in Hck by assumption. discriminate.
  - intros name s' ->.
    destruct (check_keys_missing _ _ Hmiss) as (key & _ & Hck).
    eapply NewAskers_parse_error. unfold parsed.
    rewrite UnmarshalINI_run, Hload. cbn [fst snd Message Socket].
    exact Hck.
Qed.

(** *** [Answer] *)

Lemma Answer_run (a : Askpass) (str : string) (s : State) :
  Answer E a str s =
  match net_Dial E "unixgram" (Socket a) with
  | inl err => (Some (External err), push (EvDial "unixgram" (Socket a)) s)
  | inr sock =>
      (match conn_Write sock (String "+" str) with
       | (n, Some err) => Some (External err)
       | (n, None) => if n <? len str then Some io_ErrShortWrite else None
       end,
       push (EvClose (conn_raddr sock))
         (push (EvWrite (conn_raddr sock) (String "+" str))
            (push (EvSetDeadline (conn_raddr sock)
                     (Time_Add (time_clock E (ticks s)) WriteTimeout))
               (tick (push (EvDial "unixgram" (Socket a)) s)))))
  end.
Proof.
  unfold Answer, bind, emit, time_Now, ret.
  unfold Buffer_WriteString, Buffer_WriteByte.
  destruct (net_Dial E "unixgram" (Socket a)) as [err|sock]; reflexivity.
Qed.

(** What [Answer] does, as effects added to the trace. *)
Lemma Answer_effects (a : Askpass) (str : string) (s : State) :
  effects_since s (snd (Answer E a str s))
    (EvDial "unixgram" (Socket a) ::
     match net_Dial E "unixgram" (Socket a) with
     | inl _ => []
     | inr sock =>
         [EvSetDeadline (conn_raddr sock)
            (Time_Add (time_clock E (ticks s)) WriteTimeout);
          EvWrite (conn_raddr sock) (String "+" str);
          EvClose (conn_raddr sock)]
     end).
Proof.
  unfold effects_since. rewrite Answer_run.
  destruct (net_Dial E "unixgram" (Socket a)) as [err|sock]; cbn.
  - reflexivity.
  - rewrite <- !app_assoc. reflexivity.
Qed.

(** [Answer] reports an error exactly when the dial fails, the write
    fails, or the write reports fewer bytes than the answer has. *)
Lemma Answer_error_iff (a : Askpass) (str : string) (s : State) :
  fst (Answer E a str s) <> None <->
  match net_Dial E "unixgram" (Socket a) with
  | inl _ => True
  | inr sock =>
      snd (conn_Write sock (String "+" str)) <> None \/
      fst (conn_Write sock (String "+" str)) < len str
  end.
Proof.
  rewrite Answer_run.
  destruct (net_Dial E "unixgram" (Socket a)) as [err|sock]; cbn [fst].
  - split; [auto|discriminate].
  - destruct (conn_Write sock (String "+" str)) as [n [err|]]; cbn [fst snd].
    + split; [left|]; discriminate.
    + destruct (Z.ltb_spec n (len str)).
      * split; [right; assumption|discriminate].
      * split; [contradiction|]. intros [?|?]; [contradiction|lia].
Qed.


(** On a socket that keeps the contract of [io.Writer], a write that falls
    short of the buffer, tag byte included, does make [Answer] fail: the
    error of the write is returned before the count is looked at. *)
Lemma Answer_error_contract (a : Askpass) (str : string) (sock : Conn)
    (s : State) :
  net_Dial E "unixgram" (Socket a) = inr sock ->
  Writer_contract sock ->
  (fst (Answer E a str s) <> None <->
   fst (conn_Write sock (String "+" str)) < len (String "+" str)).
Proof.
  intros Hd Hc. rewrite Answer_error_iff, Hd.
  destruct (Hc (String "+" str)) as [Hn Hshort].
  assert (Hlen : len (String "+" str) = 1 + len str)
    by (unfold len; cbn [String.length]; lia).
  split.
  - intros [Herr|Hlt]; [apply Hshort; exact Herr|lia].
  - intros Hlt. left. apply Hshort. exact Hlt.
Qed.

Lemma datagrams_app (tr1 tr2 : list Event) :
  datagrams (tr1 ++ tr2) = datagrams tr1 ++ datagrams tr2.
Proof. apply omap_app. Qed.

Lemma fs_events_app (tr1 tr2 : list Event) :
  fs_events (tr1 ++ tr2) = fs_events tr1 ++ fs_events tr2.
Proof. apply List.filter_app. Qed.

(** C3. When the dial to the descriptor's socket succeeds, [Answer s]
    hands the socket exactly one datagram, and its content is the byte [+]
    followed by the bytes of [s] and nothing else: its length is one more
    than that of [s]. *)
Theorem Answer_datagram (a : Askpass) (str : string) (sock : Conn)
    (s : State) :
  net_Dial E "unixgram" (Socket a) = inr sock ->
  exists tr,
    effects_since s (snd (Answer E a str s)) tr /\
    datagrams tr = [(conn_raddr sock, String "+" str)] /\
    len (String "+" str) = 1 + len str.
Proof.
  intros Hd. pose proof (Answer_effects a str s) as He. rewrite Hd in He.
  eexists. split; [exact He|]. split; [reflexivity|].
  unfold len. cbn [String.length]. lia.
Qed.

(** *** [ServePass] *)

Lemma Error_run (msg : string) (code : Z) (s : State) :
  Error msg code s = (http_Error code msg, push (EvLogStatus code msg) s).
Proof. reflexivity. Qed.

Lemma ServePass_run (r : Request) (s : State) :
  ServePass E r s =
  match req_ParseForm r with
  | inl err => Error (errString (External err)) StatusBadRequest s
  | inr _ =>
      match Find (fst (NewAskers E s)) (FormValue r "ask") with
      | None => Error "Not found" StatusNotFound (snd (NewAskers E s))
      | Some ap =>
          match fst (Answer E ap (FormValue r "answer")
                       (snd (NewAskers E s))) with
          | Some err =>
              Error (errString err) StatusInternalServerError
                (snd (Answer E ap (FormValue r "answer")
                        (snd (NewAskers E s))))
          | None =>
              (http_Redirect "/" StatusSeeOther,
               snd (Answer E ap (FormValue r "answer")
                      (snd (NewAskers E s))))
          end
      end
  end.
Proof.
  unfold ServePass. destruct (req_ParseForm r) as [err|form]; [reflexivity|].
  rewrite bind_run.
  destruct (Find _ _) as [ap|]; [|reflexivity].
  rewrite bind_run. destruct (fst (Answer E ap _ _)); reflexivity.
Qed.

Lemma Find_lookup (a : Askers) (name : string) : Find a name = a !! name.
Proof. unfold Find. destruct (a !! name); reflexivity. Qed.

(** C6. What [ServePass] responds to a POST: 400 with the parser's message
    when the form does not parse; otherwise 404 [Not found] when the
    registry enumerated for this request has nothing under the value of
    [ask]; otherwise 500 with the error's message when [Answer] fails on
    the value of [answer]; otherwise a 303 redirect to [/]. *)
Theorem ServePass_response (r : Request) (s : State) :
  match req_ParseForm r with
  | inl err =>
      fst (ServePass E r s) = http_Error 400 (errString (External err))
  | inr _ =>
      match fst (NewAskers E s) !! FormValue r "ask" with
      | None => fst (ServePass E r s) = http_Error 404 "Not found"
      | Some ap =>
          match fst (Answer E ap (FormValue r "answer")
                       (snd (NewAskers E s))) with
          | Some err =>
              fst (ServePass E r s) = http_Error 500 (errString err)
          | None => fst (ServePass E r s) = http_Redirect "/" 303
          end
      end
  end.
Proof.
  rewrite ServePass_run, Find_lookup.
  destruct (req_ParseForm r) as [err|form]; [reflexivity|].
  destruct (fst (NewAskers E s) !! FormValue r "ask") as [ap|];
    [|reflexivity].
  destruct (fst (Answer E ap _ _)); reflexivity.
Qed.

(** C10. When the dial to the descriptor's socket succeeds and the write
    reports no error, [Answer ""] hands the socket the single byte [+] and
    returns no error; and a POST whose [ask] resolves to that descriptor
    and whose [answer] is absent or empty is answered with the 303
    redirect, the lone [+] being the only datagram sent. *)
Theorem Answer_empty (a : Askpass) (sock : Conn) (s : State) :
  net_Dial E "unixgram" (Socket a) = inr sock ->
  snd (conn_Write sock "+") = None ->
  0 <= fst (conn_Write sock "+") ->
  (fst (Answer E a "" s) = None /\
   exists tr, effects_since s (snd (Answer E a "" s)) tr /\
              datagrams tr = [(conn_raddr sock, "+")]) /\
  (forall r form,
     req_ParseForm r = inr form ->
     form !! "answer" = None \/ form !! "answer" = Some [] \/
       (exists more, form !! "answer" = Some ("" :: more)) ->
     fst (NewAskers E s) !! FormValue r "ask" = Some a ->
     fst (ServePass E r s) = http_Redirect "/" 303 /\
     exists tr, effects_since (snd (NewAskers E s)) (snd (ServePass E r s)) tr /\
                datagrams tr = [(conn_raddr sock, "+")]).
Proof.
  intros Hd Hw Hn.
  assert (Hans : forall s', fst (Answer E a "" s') = None).
  { intros s'. rewrite Answer_run, Hd. cbn [fst].
    destruct (conn_Write sock "+") as [n [err|]]; cbn in Hw, Hn;
      [discriminate|].
    unfold len. cbn [String.length].
    destruct (Z.ltb_spec n (Z.of_nat 0)); [lia|reflexivity]. }
  assert (Heff : forall s', exists tr,
             effects_since s' (snd (Answer E a "" s')) tr /\
             datagrams tr = [(conn_raddr sock, "+")]).
  { intros s'. pose proof (Answer_effects a "" s') as He. rewrite Hd in He.
    eexists. split; [exact He|reflexivity]. }
  split; [split; [apply Hans|apply Heff]|].
  intros r form Hform Hempty Hl.
  assert (Hv : FormValue r "answer" = "").
  { unfold FormValue. rewrite Hform.
    destruct Hempty as [->|[->|[more ->]]]; reflexivity. }
  rewrite ServePass_run, Hform, Find_lookup, Hl, Hv, Hans.
  cbn [fst snd]. split; [reflexivity|apply Heff].
Qed.

(** *** The filesystem and the name *)

Lemma NewAskers_effects (s : State) :
  exists tr, effects_since s (snd (NewAskers E s)) tr /\
             Forall (enumeration_effect E) tr.
Proof.
  rewrite NewAskers_run.
  assert (H0 : effects_since s (push (EvReadDir (flag_askDir E)) s)
                 [EvReadDir (flag_askDir E)]) by reflexivity.
  destruct (os_ReadDir E (flag_askDir E)) as [err|d] eqn:Hd.
  - exists [EvReadDir (flag_askDir E); EvLogErr (External err)]. split.
    + unfold effects_since. cbn. rewrite <- app_assoc. reflexivity.
    + constructor; [left; reflexivity|].
      constructor; [right; right; eauto|constructor].
  - destruct (NewAskers_range_effects d ∅ (push (EvReadDir (flag_askDir E)) s))
      as (tr & Ht & Hf).
    eexists. split; [eapply effects_since_trans; eassumption|].
    constructor; [left; reflexivity|].
    eapply Forall_impl; [exact Hf|]. cbn.
    intros e [(entry & Hin & ->)|Hlog]; right; [left|right; exact Hlog].
    exists d, entry. auto.
Qed.

(** What [ServePass] adds to the effects of its enumeration is no access
    to the filesystem. *)
Lemma ServePass_fs_events (r : Request) (s : State) :
  fs_events (trace (snd (ServePass E r s))) =
  match req_ParseForm r with
  | inl _ => fs_events (trace s)
  | inr _ => fs_events (trace (snd (NewAskers E s)))
  end.
Proof.
  rewrite ServePass_run.
  destruct (req_ParseForm r) as [err|form].
  { rewrite Error_run. cbn [snd push trace]. rewrite fs_events_app.
    apply app_nil_r. }
  destruct (Find _ _) as [ap|].
  2:{ rewrite Error_run. cbn [snd push trace]. rewrite fs_events_app.
      apply app_nil_r. }
  pose proof (Answer_effects ap (FormValue r "answer") (snd (NewAskers E s)))
    as He. unfold effects_since in He.
  assert (Hfs : fs_events (trace (snd (Answer E ap (FormValue r "answer")
                                         (snd (NewAskers E s))))) =
                fs_events (trace (snd (NewAskers E s)))).
  { rewrite He, fs_events_app.
    destruct (net_Dial E "unixgram" (Socket ap)); apply app_nil_r. }
  destruct (fst (Answer E ap _ _)).
  - rewrite Error_run. cbn [snd push trace]. rewrite fs_events_app, Hfs.
    apply app_nil_r.
  - exact Hfs.
Qed.

(** C1. [Find] looks the name up in the map and does nothing else: it
    returns nothing, or a descriptor that the registry already holds under
    that name.  In a registry that [NewAskers] has just enumerated, such a
    descriptor belongs to an entry of the directory listing, and its path
    was built from that entry.  The filesystem accesses of the enumeration
    are the listing of the directory and the loads of listed entries; and
    a request served by [ServePass], whatever name it carries, adds no
    access to them. *)
Theorem Find_opaque_name (a : Askers) (name : string) (s : State) :
  (Find a name = None \/
   exists ap, Find a name = Some ap /\ a !! name = Some ap) /\
  (forall ap,
     Find (fst (NewAskers E s)) name = Some ap ->
     exists d entry, os_ReadDir E (flag_askDir E) = inr d /\ entry ∈ d /\
                     Name entry = name /\
                     Path ap = ask_path E (Name entry)) /\
  (exists tr, effects_since s (snd (NewAskers E s)) tr /\
              Forall (enumeration_effect E) tr) /\
  (forall r,
     fs_events (trace (snd (ServePass E r s))) =
     match req_ParseForm r with
     | inl _ => fs_events (trace s)
     | inr _ => fs_events (trace (snd (NewAskers E s)))
     end).
Proof.
  split; [|split; [|split]].
  - rewrite Find_lookup. destruct (a !! name) as [ap|]; eauto.
  - intros ap. rewrite Find_lookup. intros Hl.
    apply NewAskers_lookup in Hl
      as (d & i & Hd & e & He & Hn & _ & _ & Hpar & _).
    exists d, e. split; [exact Hd|].
    split; [eapply list_elem_of_lookup_2; exact He|].
    split; [exact Hn|]. rewrite Hn. apply parsed_Path. exact Hpar.
  - apply NewAskers_effects.
  - intros r. apply ServePass_fs_events.
Qed.

(** *** [Listener] *)

Lemma append_String (c : ascii) (s t : string) :
  String c s +:+ t = String c (s +:+ t).
Proof. reflexivity. Qed.

Lemma CutPrefix_true (s prefix after : string) :
  CutPrefix s prefix = (after, true) <-> s = prefix +:+ after.
Proof.
  revert s. induction prefix as [|p prefix IH]; intros s.
  - replace (CutPrefix s "") with (s, true) by (destruct s; reflexivity).
    change ("" +:+ after) with after.
    split; [intros [= ->]; reflexivity|intros ->; reflexivity].
  - rewrite append_String.
    destruct s as [|c s]; [split; discriminate|]. cbn [CutPrefix].
    destruct (Ascii.eqb_spec c p) as [->|Hne].
    + specialize (IH s). destruct (CutPrefix s prefix) as [rest [|]].
      * split.
        -- intros [= <-]. f_equal. apply IH. reflexivity.
        -- intros [= Hs]. apply IH in Hs. injection Hs as ->. reflexivity.
      * split; [discriminate|]. intros [= Hs]. apply IH in Hs. discriminate.
    + split; [discriminate|]. intros [= Hc _]. contradiction.
Qed.

Lemma CutPrefix_false (s prefix : string) :
  snd (CutPrefix s prefix) = false ->
  forall after, s <> prefix +:+ after.
Proof.
  intros Hf after Hs. apply CutPrefix_true in Hs. rewrite Hs in Hf.
  discriminate.
Qed.

(** Which way [Listener] goes is decided by the [-listen] flag; its
    argument is used for the address of a fresh bind only. *)
Lemma Listener_by_flag (addr : string) (s : State) :
  (forall fdstr,
     flag_listen E = "fd:" +:+ fdstr ->
     match strconv_Atoi fdstr with
     | inl err => Listener E addr s = (Err (External err), s)
     | inr fd =>
         fst (Listener E addr s) =
           match net_FileListener E fd with
           | Some err => Err (External err)
           | None => Ok (FileListener fd)
           end /\
         effects_since s (snd (Listener E addr s))
           [EvNewFile fd (flag_listen E); EvFileListener fd; EvFileClose fd]
     end) /\
  ((forall fdstr, flag_listen E <> "fd:" +:+ fdstr) ->
   fst (Listener E addr s) =
     match net_Listen E "tcp" addr with
     | Some err => Err (External err)
     | None => Ok (TCPListener addr)
     end /\
   effects_since s (snd (Listener E addr s)) [EvListen "tcp" addr]).
Proof.
  split.
  - intros fdstr Hfl. apply CutPrefix_true in Hfl. unfold Listener.
    rewrite Hfl. destruct (strconv_Atoi fdstr) as [err|fd]; [reflexivity|].
    unfold bind, emit, ret, effects_since. cbn.
    rewrite <- !app_assoc. split; reflexivity.
  - intros Hno. unfold Listener.
    destruct (CutPrefix (flag_listen E) "fd:") as [rest [|]] eqn:Hc.
    { apply CutPrefix_true in Hc. destruct (Hno rest Hc). }
    unfold bind, emit, ret, effects_since. cbn.
    destruct (net_Listen E "tcp" addr); split; reflexivity.
Qed.

(** *** Timers *)

Lemma NewAskpass_timers (name : string) (s : State) :
  timers (snd (NewAskpass E name s)) = timers s.
Proof.
  rewrite NewAskpass_run. destruct (parsed E _) as [ap [err|]]; [reflexivity|].
  pose proof (IsExpired_timers ap (push (EvLoad (ask_path E name)) s)) as Ht.
  destruct (IsExpired E ap _) as [[err|] s']; exact Ht.
Qed.

Lemma NewAskers_range_timers (d : list DirEntry) (out : Askers) (s : State) :
  timers (snd (NewAskers_range E d out s)) = timers s.
Proof.
  revert out s. induction d as [|entry d IH]; intros out s; [reflexivity|].
  rewrite NewAskers_range_cons.
  destruct (HasPrefix _ _ && negb _); [|apply IH].
  pose proof (NewAskpass_timers (Name entry) s) as Ht.
  destruct (NewAskpass E (Name entry) s) as [[ap|err] s']; rewrite IH;
    exact Ht.
Qed.

Lemma NewAskers_timers (s : State) :
  timers (snd (NewAskers E s)) = timers s.
Proof.
  rewrite NewAskers_run. destruct (os_ReadDir E _); [reflexivity|].
  rewrite NewAskers_range_timers. reflexivity.
Qed.

Lemma Answer_timers (a : Askpass) (str : string) (s : State) :
  timers (snd (Answer E a str s)) = timers s.
Proof. rewrite Answer_run. destruct (net_Dial E _ _); reflexivity. Qed.

(** [ServePass] leaves the runtime's timers alone. *)
Lemma ServePass_timers (r : Request) (s : State) :
  timers (snd (ServePass E r s)) = timers s.
Proof.
  rewrite ServePass_run. destruct (req_ParseForm r); [reflexivity|].
  destruct (Find _ _) as [ap|]; [|apply NewAskers_timers].
  destruct (fst (Answer E ap _ _)); cbn [snd Error];
    rewrite ?Error_run; cbn [snd push timers];
    rewrite Answer_timers; apply NewAskers_timers.
Qed.

(** With no timer around, no callback runs, whatever the schedule. *)
Lemma serve_no_timers (shutdownFunc : Context -> M (option error))
    (h : Handler) (sched : list Step) (s : State) :
  timers s = [] ->
  (forall r s', timers s' = [] -> timers (snd (h r s')) = []) ->
  fst (serve E shutdownFunc h sched s) = 0%nat /\
  timers (snd (serve E shutdownFunc h sched s)) = [].
Proof.
  intros Ht Hh. revert s Ht.
  induction sched as [|[r|t] sched IH]; intros s Ht.
  - auto.
  - cbn [serve]. rewrite bind_run. apply IH. apply Hh. exact Ht.
  - cbn [serve]. rewrite bind_run.
    assert (Hx : expire E shutdownFunc t s = (false, s)).
    { unfold expire. rewrite Ht. reflexivity. }
    rewrite Hx. cbn [fst snd]. rewrite bind_run. cbn [ret fst snd].
    apply IH. exact Ht.
Qed.

(** C9. With an idle duration of zero, [NewIdleHandler] returns the
    handler it was given and the [nil] channel, and changes nothing: it
    starts no timer and makes no context.  From then on the server is the
    bare handler: with no timer around, no schedule of requests and timer
    expiries runs a shutdown callback. *)
Theorem NewIdleHandler_zero (shutdownFunc : Context -> M (option error))
    (handler : Handler) (s : State) :
  NewIdleHandler 0 shutdownFunc handler s = ((handler, None), s) /\
  (forall sched,
     timers s = [] ->
     (forall r s', timers s' = [] -> timers (snd (handler r s')) = []) ->
     fst (serve E shutdownFunc
            (fst (fst (NewIdleHandler 0 shutdownFunc handler s))) sched
            (snd (NewIdleHandler 0 shutdownFunc handler s))) = 0%nat).
Proof.
  split; [reflexivity|]. intros sched Ht Hh. cbn [NewIdleHandler fst snd].
  apply serve_no_timers; assumption.
Qed.

(** A positive idle duration does start a timer, and its expiry calls the
    shutdown function and then cancels the context of the channel. *)
Lemma NewIdleHandler_positive (d : Duration) (handler : Handler) (s : State) :
  0 < d ->
  let '((_, done), s1) := NewIdleHandler d (srv_Shutdown E) handler s in
  done = Some (ctxs s) /\
  timers s1 = timers s ++
    [{| timer_d := d; timer_f := IdleShutdown d (ctxs s);
        timer_armed := true |}] /\
  fst (expire E (srv_Shutdown E) (length (timers s)) s1) = true /\
  exists deadline,
    effects_since s1
      (snd (expire E (srv_Shutdown E) (length (timers s)) s1))
      [EvLogIdle d gracePeriod; EvShutdown (ctx_WithTimeout deadline);
       EvCancel (ctxs s)].
Proof.
  intros Hd. unfold NewIdleHandler.
  destruct (Z.ltb_spec 0 d); [|lia].
  unfold bind, context_WithCancel, time_AfterFunc, ret. cbn [timers].
  split; [reflexivity|]. split; [reflexivity|].
  unfold expire. cbn [timers].
  rewrite lookup_app_r by reflexivity.
  rewrite Nat.sub_diag. cbn [lookup list_lookup timer_f timer_armed].
  split; [reflexivity|].
  eexists. unfold effects_since, run_Callback, srv_Shutdown, disarm, bind,
    emit, time_Now, ret. cbn. rewrite <- !app_assoc. reflexivity.
Qed.

End Theory.

(** ** The properties in the concrete world *)

Lemma test_listing_ReadDir :
  os_ReadDir test_env (flag_askDir test_env) = inr test_listing.
Proof. reflexivity. Qed.

(** The scenario of the prompt [ask.abc123]: the registry holds it and
    nothing else, and the answer [hunter2] goes to [/tmp/test.sock] as the
    datagram [+hunter2], followed by the redirect. *)
Example scenario_registry :
  fst (NewAskers test_env state0) = {[ "ask.abc123" := abc123 ]}.
Proof. vm_compute. reflexivity. Qed.

Example scenario_post :
  fst (ServePass test_env hunter2_post state0) = http_Redirect "/" 303 /\
  datagrams (trace (snd (ServePass test_env hunter2_post state0))) =
    [("/tmp/test.sock", "+hunter2")].
Proof. vm_compute. split; reflexivity. Qed.

(** A name that walks out of the directory finds nothing, and the
    filesystem sees what it sees for any other request. *)
Example scenario_traversal :
  fst (ServePass test_env traversal_post state0) = http_Error 404 "Not found" /\
  fs_events (trace (snd (ServePass test_env traversal_post state0))) =
  fs_events (trace (snd (ServePass test_env hunter2_post state0))).
Proof. vm_compute. split; reflexivity. Qed.

Lemma Find_opaque_name_witness :
  Find (fst (NewAskers test_env state0)) "ask.abc123" = Some abc123 /\
  exists d entry,
    os_ReadDir test_env (flag_askDir test_env) = inr d /\ entry ∈ d /\
    Name entry = "ask.abc123" /\
    Path abc123 = ask_path test_env (Name entry).
Proof.
  assert (Hf : Find (fst (NewAskers test_env state0)) "ask.abc123" =
               Some abc123) by (vm_compute; reflexivity).
  split; [exact Hf|].
  destruct (Find_opaque_name test_env ∅ "ask.abc123" state0)
    as (_ & H & _).
  exact (H abc123 Hf).
Defined.

Lemma UnmarshalINI_missing_key_witness :
  ini_Load test_env "/run/systemd/ask-password/ask.nosock" =
    inr (ini_Ask [("Message", "Enter passphrase")]) /\
  snd (fst (UnmarshalINI test_env Askpass_zero
              "/run/systemd/ask-password/ask.nosock" state0)) =
    Some (Errorf_w ErrMissingKey ": Socket") /\
  fst (NewAskers test_env state0) !! "ask.nosock" = None.
Proof.
  assert (Hl : ini_Load test_env "/run/systemd/ask-password/ask.nosock" =
               inr (ini_Ask [("Message", "Enter passphrase")]))
    by reflexivity.
  destruct (UnmarshalINI_missing_key test_env Askpass_zero _ _ state0 Hl)
    as ((key & _ & Hk & _) & _ & Hreg).
  { right. vm_compute. reflexivity. }
  split; [exact Hl|]. split.
  - vm_compute. reflexivity.
  - apply Hreg. vm_compute. reflexivity.
Defined.

Lemma Answer_datagram_witness :
  exists tr,
    effects_since state0 (snd (Answer test_env abc123 "hunter2" state0)) tr /\
    datagrams tr = [("/tmp/test.sock", "+hunter2")] /\
    len "+hunter2" = 1 + len "hunter2".
Proof.
  apply (Answer_datagram test_env abc123 "hunter2"
           (test_sock "/tmp/test.sock") state0).
  reflexivity.
Defined.

Lemma Answer_empty_witness :
  fst (Answer test_env abc123 "" state0) = None /\
  fst (ServePass test_env empty_post state0) = http_Redirect "/" 303.
Proof.
  destruct (Answer_empty test_env abc123 (test_sock "/tmp/test.sock") state0)
    as [[Hans _] Hpost]; [reflexivity|reflexivity|vm_compute; discriminate|].
  split; [exact Hans|].
  destruct (Hpost empty_post
              (list_to_map [("ask", ["ask.abc123"])])) as [Hr _].
  - vm_compute. reflexivity.
  - left. vm_compute. reflexivity.
  - vm_compute. reflexivity.
  - exact Hr.
Defined.

Lemma NewIdleHandler_zero_witness :
  fst (serve test_env (srv_Shutdown test_env)
         (fst (fst (NewIdleHandler 0 (srv_Shutdown test_env)
                      (ServePass test_env) state0)))
         [Arrive hunter2_post; Expire 0%nat; Arrive empty_post]
         (snd (NewIdleHandler 0 (srv_Shutdown test_env)
                 (ServePass test_env) state0))) = 0%nat.
Proof.
  destruct (NewIdleHandler_zero test_env (srv_Shutdown test_env)
              (ServePass test_env) state0) as [_ H].
  apply H; [reflexivity|].
  intros r s' Hs'. rewrite ServePass_timers. exact Hs'.
Defined.

(** With an idle duration of a minute, by contrast, the expiry of the
    timer runs the callback. *)
Example idle_minute_shuts_down :
  fst (serve test_env (srv_Shutdown test_env)
         (fst (fst (NewIdleHandler (60 * Second) (srv_Shutdown test_env)
                      (ServePass test_env) state0)))
         [Arrive hunter2_post; Expire 0%nat]
         (snd (NewIdleHandler (60 * Second) (srv_Shutdown test_env)
                 (ServePass test_env) state0))) = 1%nat.
Proof. vm_compute. reflexivity. Qed.

(** C8. [Listener] is to adopt a descriptor exactly when its argument has
    the form [fd:n].  It looks at the [-listen] flag instead: called with
    [fd:3] while the flag holds an address, it binds a TCP socket to the
    address [fd:3] and adopts nothing; called with an address while the
    flag holds [fd:3], it adopts descriptor 3 and binds nothing. *)
Theorem Listener_ignores_argument :
  Listener test_env "fd:3" state0 =
    (Ok (TCPListener "fd:3"), push (EvListen "tcp" "fd:3") state0) /\
  Listener fd_env "[::]:8080" state0 =
    (Ok (FileListener 3),
     push (EvFileClose 3)
       (push (EvFileListener 3) (push (EvNewFile 3 "fd:3") state0))).
Proof. vm_compute. split; reflexivity. Qed.

(** As [main] calls it, with the flag itself, [Listener] does adopt the
    descriptor of [fd:3] without a bind. *)
Example Listener_from_main :
  Listener fd_env (flag_listen fd_env) state0 =
    (Ok (FileListener 3),
     push (EvFileClose 3)
       (push (EvFileListener 3) (push (EvNewFile 3 "fd:3") state0))).
Proof. vm_compute. reflexivity. Qed.

(** The other answers of [ServePass]: a form that does not parse, a
    prompt that has expired, a socket that runs into the deadline, and a
    directory that cannot be listed. *)
Example scenario_bad_form :
  fst (ServePass test_env bad_post state0) =
  http_Error 400 "invalid URL escape".
Proof. vm_compute. reflexivity. Qed.

Example scenario_expired :
  fst (ServePass test_env old_post state0) = http_Error 404 "Not found".
Proof. vm_compute. reflexivity. Qed.

Example scenario_timeout :
  fst (ServePass timeout_env hunter2_post state0) =
  http_Error 500 "write unixgram: i/o timeout" /\
  last (trace (snd (Answer timeout_env abc123 "hunter2" state0))) =
  Some (EvClose "/tmp/test.sock").
Proof. vm_compute. split; reflexivity. Qed.

Example scenario_no_directory :
  NewAskers nodir_env state0 =
  (∅, push (EvLogErr (External (ExtErr "permission denied")))
        (push (EvReadDir "/run/systemd/ask-password") state0)) /\
  fst (ServePass nodir_env hunter2_post state0) = http_Error 404 "Not found".
Proof. vm_compute. split; reflexivity. Qed.

(** ** Further properties of the program *)

Section MoreTheory.

Variable E : Env.

(** *** Descriptors *)

Lemma parsed_fields (path : string) (ap : Askpass) :
  parsed E path = (ap, None) ->
  Path ap = path /\ Message ap <> "" /\ Socket ap <> "".
Proof.
  unfold parsed. rewrite UnmarshalINI_run. cbn [fst].
  destruct (ini_Load E path) as [err|f]; [discriminate|].
  cbn [Message Socket check_keys]. intros [= <- Hck].
  cbn [Path Message Socket].
  destruct (decide (ini_String f "Ask" "Message" = "")); [discriminate|].
  destruct (decide (ini_String f "Ask" "Socket" = "")); [discriminate|].
  auto.
Qed.

(** X1. Expiry is for good: a descriptor that [IsExpired] finds expired at
    one reading of the clock is found expired at every reading that is not
    earlier. *)
Theorem IsExpired_monotone (a : Askpass) (s1 s2 : State) :
  time_clock E (ticks s1) <= time_clock E (ticks s2) ->
  fst (IsExpired E a s1) <> None ->
  fst (IsExpired E a s2) <> None.
Proof.
  intros Hle H1 H2. apply H1. apply IsExpired_None.
  apply IsExpired_None in H2 as [Hz|H2]; [left; exact Hz|right; lia].
Qed.

(** X2. A prompt file with its [Message] and [Socket] whose [NotAfter] is
    absent or is not an RFC 3339 time yields a descriptor without expiry:
    [NewAskpass] returns it whatever the clock says, and does not read the
    clock. *)
Theorem NewAskpass_unparsed_NotAfter (name : string) (f : IniFile)
    (s : State) :
  ini_Load E (ask_path E name) = inr f ->
  ini_String f "Ask" "Message" <> "" ->
  ini_String f "Ask" "Socket" <> "" ->
  time_ParseRFC3339 E (ini_String f "Ask" "NotAfter") = None ->
  NewAskpass E name s =
  (Ok {| Path := ask_path E name;
         Message := ini_String f "Ask" "Message";
         Icon := ini_String f "Ask" "Icon";
         Socket := ini_String f "Ask" "Socket";
         NotAfter := 0 |},
   push (EvLoad (ask_path E name)) s).
Proof.
  intros Hl Hm Hs Ht. rewrite NewAskpass_run. unfold parsed.
  rewrite UnmarshalINI_run, Hl. cbn [fst Message Socket].
  rewrite check_keys_present by assumption.
  unfold ini_MustTime. rewrite Ht. cbn [default].
  rewrite IsExpired_run. reflexivity.
Qed.

(** X3. The error for a prompt file with an empty key reads [missing key:
    Message] when the message is empty, whether or not the socket is
    empty too, and [missing key: Socket] when only the socket is. *)
Theorem UnmarshalINI_names_first_key (a : Askpass) (path : string)
    (f : IniFile) (s : State) :
  ini_Load E path = inr f ->
  (ini_String f "Ask" "Message" = "" ->
   errString <$> snd (fst (UnmarshalINI E a path s)) =
   Some "missing key: Message") /\
  (ini_String f "Ask" "Message" <> "" ->
   ini_String f "Ask" "Socket" = "" ->
   errString <$> snd (fst (UnmarshalINI E a path s)) =
   Some "missing key: Socket").
Proof.
  intros Hl. rewrite UnmarshalINI_run, Hl.
  cbn [fst snd Message Socket check_keys]. split.
  - intros Hm. destruct (decide (ini_String f "Ask" "Message" = ""));
      [reflexivity|contradiction].
  - intros Hm Hs.
    destruct (decide (ini_String f "Ask" "Message" = "")); [contradiction|].
    destruct (decide (ini_String f "Ask" "Socket" = ""));
      [reflexivity|contradiction].
Qed.

(** *** The registry *)

(** X4. What every registry keeps: each key carries the prefix [ask.],
    and the descriptor under it has the path of that key in the prompt
    directory, a message and a socket. *)
Theorem NewAskers_invariant (s : State) (name : string) (ap : Askpass) :
  fst (NewAskers E s) !! name = Some ap ->
  HasPrefix name "ask." = true /\
  Path ap = ask_path E name /\ Message ap <> "" /\ Socket ap <> "".
Proof.
  intros Hl.
  apply NewAskers_lookup in Hl as (d & i & _ & e & _ & _ & Hp & _ & Hpar & _).
  split; [exact Hp|]. apply parsed_fields. exact Hpar.
Qed.

Lemma NewAskers_range_fs (d : list DirEntry) (out : Askers) (s : State) :
  fs_events (trace (snd (NewAskers_range E d out s))) =
  fs_events (trace s) ++
  map (fun entry => EvLoad (ask_path E (Name entry)))
      (List.filter candidate d).
Proof.
  revert out s. induction d as [|entry d IH]; intros out s.
  - cbn. rewrite app_nil_r. reflexivity.
  - rewrite NewAskers_range_step, IH. cbn [List.filter]. unfold candidate at 2.
    destruct (after_entry_effects E entry s)
      as [[Hc Hs]|(Hp & Hd & [(ap & _ & H1)|(err & _ & H1)])].
    + rewrite Hc, Hs. reflexivity.
    + rewrite Hp, Hd. cbn [negb andb map]. unfold effects_since in H1.
      rewrite H1, fs_events_app, <- app_assoc. reflexivity.
    + rewrite Hp, Hd. cbn [negb andb map]. unfold effects_since in H1.
      rewrite H1, fs_events_app, <- app_assoc. reflexivity.
Qed.

(** X5. The filesystem accesses of one enumeration, in order: the listing
    of the prompt directory, then one load for each entry of the listing
    that carries the prefix and is not a directory.  No other entry is
    opened, none is opened twice, and nothing is opened when the listing
    fails. *)
Theorem NewAskers_fs_accesses (s : State) :
  exists tr,
    effects_since s (snd (NewAskers E s)) tr /\
    fs_events tr =
    EvReadDir (flag_askDir E) ::
    match os_ReadDir E (flag_askDir E) with
    | inl _ => []
    | inr d => map (fun entry => EvLoad (ask_path E (Name entry)))
                   (List.filter candidate d)
    end.
Proof.
  destruct (NewAskers_effects E s) as (tr & Ht & _).
  exists tr. split; [exact Ht|].
  assert (Hall : fs_events (trace (snd (NewAskers E s))) =
                 fs_events (trace s) ++
                 EvReadDir (flag_askDir E) ::
                 match os_ReadDir E (flag_askDir E) with
                 | inl _ => []
                 | inr d => map (fun entry => EvLoad (ask_path E (Name entry)))
                                (List.filter candidate d)
                 end).
  { rewrite NewAskers_run.
    destruct (os_ReadDir E (flag_askDir E)) as [err|d].
    - cbn [snd push trace]. rewrite !fs_events_app. cbn.
      rewrite app_nil_r. reflexivity.
    - rewrite NewAskers_range_fs. cbn [push trace].
      rewrite fs_events_app, <- app_assoc. reflexivity. }
  unfold effects_since in Ht. rewrite Ht, fs_events_app in Hall.
  apply app_inv_head in Hall. exact Hall.
Qed.

(** *** [Answer] *)

(** X7. Which error [Answer] returns: the error of the dial; otherwise the
    error of the write, however many bytes it reports; otherwise
    [io.ErrShortWrite] when the count is below the length of the answer;
    otherwise none. *)
Theorem Answer_error (a : Askpass) (str : string) (s : State) :
  match net_Dial E "unixgram" (Socket a) with
  | inl err => fst (Answer E a str s) = Some (External err)
  | inr sock =>
      (forall err,
         snd (conn_Write sock (String "+" str)) = Some err ->
         fst (Answer E a str s) = Some (External err)) /\
      (snd (conn_Write sock (String "+" str)) = None ->
       (fst (conn_Write sock (String "+" str)) < len str ->
        fst (Answer E a str s) = Some io_ErrShortWrite) /\
       (len str <= fst (conn_Write sock (String "+" str)) ->
        fst (Answer E a str s) = None))
  end.
Proof.
  rewrite Answer_run.
  destruct (net_Dial E "unixgram" (Socket a)) as [err|sock]; [reflexivity|].
  cbn [fst].
  destruct (conn_Write sock (String "+" str)) as [n [e|]]; cbn [fst snd].
  - split; [intros err [= <-]; reflexivity|discriminate].
  - split; [discriminate|]. intros _.
    destruct (Z.ltb_spec n (len str)); split; intros; (reflexivity || lia).
Qed.

(** X8. What [Answer] does to the outside, in order.  When the dial
    fails, the dial is all.  When it succeeds, [Answer] reads the clock
    once, sets the deadline of the socket to ten seconds after that
    reading, writes once, and closes the socket last. *)
Theorem Answer_steps (a : Askpass) (str : string) (s : State) :
  match net_Dial E "unixgram" (Socket a) with
  | inl _ =>
      snd (Answer E a str s) = push (EvDial "unixgram" (Socket a)) s
  | inr sock =>
      effects_since s (snd (Answer E a str s))
        [EvDial "unixgram" (Socket a);
         EvSetDeadline (conn_raddr sock)
           (time_clock E (ticks s) + 10000000000);
         EvWrite (conn_raddr sock) (String "+" str);
         EvClose (conn_raddr sock)] /\
      ticks (snd (Answer E a str s)) = S (ticks s)
  end.
Proof.
  pose proof (Answer_effects E a str s) as He. rewrite Answer_run in *.
  destruct (net_Dial E "unixgram" (Socket a)) as [err|sock]; [reflexivity|].
  split; [exact He|reflexivity].
Qed.

(** X9. On a socket that keeps the contract of [io.Writer], [Answer]
    returns no error exactly when the whole buffer, the tag byte and the
    answer, was written. *)
Theorem Answer_complete_write (a : Askpass) (str : string) (sock : Conn)
    (s : State) :
  net_Dial E "unixgram" (Socket a) = inr sock ->
  Writer_contract sock ->
  (fst (Answer E a str s) = None <->
   fst (conn_Write sock (String "+" str)) = len (String "+" str)).
Proof.
  intros Hd Hc.
  pose proof (Answer_error_contract E a str sock s Hd Hc) as Hiff.
  destruct (Hc (String "+" str)) as [Hn _].
  split.
  - intros Hnone.
    destruct (Z.lt_ge_cases (fst (conn_Write sock (String "+" str)))
                (len (String "+" str))) as [Hlt|Hge]; [|lia].
    apply Hiff in Hlt. contradiction.
  - intros Heq. destruct (fst (Answer E a str s)) as [err|] eqn:Ha;
      [|reflexivity].
    assert (Hne : Some err <> None) by discriminate.
    apply Hiff in Hne. lia.
Qed.

(** *** [ServePass] *)

Lemma enumeration_quiet (tr : list Event) :
  Forall (enumeration_effect E) tr -> datagrams tr = [] /\ dials tr = [].
Proof.
  induction 1 as [|e tr He _ [IH1 IH2]]; [split; reflexivity|].
  unfold datagrams, dials in *. cbn [omap list_omap].
  destruct He as [->|[(d & entry & _ & _ & ->)|(err & ->)]];
    rewrite ?IH1, ?IH2; split; reflexivity.
Qed.

(** All that [ServePass] does, after the effects [tr1] of its
    enumeration. *)
Lemma ServePass_effects (r : Request) (s : State) :
  exists tr1,
    effects_since s (snd (NewAskers E s)) tr1 /\
    Forall (enumeration_effect E) tr1 /\
    effects_since s (snd (ServePass E r s))
      match req_ParseForm r with
      | inl err => [EvLogStatus 400 (errString (External err))]
      | inr _ =>
          tr1 ++
          match fst (NewAskers E s) !! FormValue r "ask" with
          | None => [EvLogStatus 404 "Not found"]
          | Some ap =>
              (EvDial "unixgram" (Socket ap) ::
               match net_Dial E "unixgram" (Socket ap) with
               | inl _ => []
               | inr sock =>
                   [EvSetDeadline (conn_raddr sock)
                      (Time_Add (time_clock E (ticks (snd (NewAskers E s))))
                         WriteTimeout);
                    EvWrite (conn_raddr sock)
                      (String "+" (FormValue r "answer"));
                    EvClose (conn_raddr sock)]
               end) ++
              match fst (Answer E ap (FormValue r "answer")
                           (snd (NewAskers E s))) with
              | Some err => [EvLogStatus 500 (errString err)]
              | None => []
              end
          end
      end.
Proof.
  destruct (NewAskers_effects E s) as (tr1 & H1 & HF).
  exists tr1. split; [exact H1|]. split; [exact HF|].
  rewrite ServePass_run, Find_lookup.
  destruct (req_ParseForm r) as [err|form]; [reflexivity|].
  destruct (fst (NewAskers E s) !! FormValue r "ask") as [ap|].
  2:{ rewrite Error_run. cbn [snd]. eapply effects_since_trans; [exact H1|].
      reflexivity. }
  pose proof (Answer_effects E ap (FormValue r "answer") (snd (NewAskers E s)))
    as H2.
  eapply effects_since_trans; [exact H1|].
  destruct (fst (Answer E ap _ _)) as [err|].
  - rewrite Error_run. cbn [snd]. eapply effects_since_trans; [exact H2|].
    reflexivity.
  - cbn [snd]. rewrite app_nil_r. exact H2.
Qed.

(** X10. [ServePass] sends at most one datagram for a request, and never
    tries twice: none when the form does not parse, when the name does
    not resolve or when the dial fails; otherwise exactly one, to the
    socket of the descriptor it found, made of [+] and the value of
    [answer]. *)
Theorem ServePass_datagrams (r : Request) (s : State) :
  exists tr,
    effects_since s (snd (ServePass E r s)) tr /\
    datagrams tr =
    match req_ParseForm r with
    | inl _ => []
    | inr _ =>
        match fst (NewAskers E s) !! FormValue r "ask" with
        | None => []
        | Some ap =>
            match net_Dial E "unixgram" (Socket ap) with
            | inl _ => []
            | inr sock =>
                [(conn_raddr sock, String "+" (FormValue r "answer"))]
            end
        end
    end /\
    dials tr =
    match req_ParseForm r with
    | inl _ => []
    | inr _ =>
        match fst (NewAskers E s) !! FormValue r "ask" with
        | None => []
        | Some ap => [("unixgram", Socket ap)]
        end
    end.
Proof.
  destruct (ServePass_effects r s) as (tr1 & _ & HF & Hall).
  destruct (enumeration_quiet tr1 HF) as [Hd1 Hd2].
  eexists. split; [exact Hall|].
  destruct (req_ParseForm r) as [err|form]; [split; reflexivity|].
  unfold datagrams, dials in *. rewrite !omap_app, Hd1, Hd2.
  destruct (fst (NewAskers E s) !! FormValue r "ask") as [ap|];
    [|split; reflexivity].
  rewrite !omap_app.
  destruct (net_Dial E "unixgram" (Socket ap)) as [e|sock];
    destruct (fst (Answer E ap _ _)); split; reflexivity.
Qed.

(** X11. A name that does not begin with [ask.] never resolves: whatever
    the directory holds, [ServePass] answers 404, dials nothing and sends
    nothing. *)
Theorem ServePass_foreign_name (r : Request)
    (form : gmap string (list string)) (s : State) :
  req_ParseForm r = inr form ->
  HasPrefix (FormValue r "ask") "ask." = false ->
  fst (ServePass E r s) = http_Error 404 "Not found" /\
  exists tr,
    effects_since s (snd (ServePass E r s)) tr /\
    dials tr = [] /\ datagrams tr = [].
Proof.
  intros Hform Hp.
  assert (Hl : fst (NewAskers E s) !! FormValue r "ask" = None).
  { destruct (fst (NewAskers E s) !! FormValue r "ask") as [ap|] eqn:Hl;
      [|reflexivity].
    apply NewAskers_lookup in Hl as (d & i & _ & e & _ & _ & Hp' & _).
    congruence. }
  destruct (ServePass_effects r s) as (tr1 & _ & HF & Hall).
  destruct (enumeration_quiet tr1 HF) as [Hd1 Hd2].
  rewrite ServePass_run, Find_lookup in *.
  rewrite Hform in *. rewrite Hl in *. split; [reflexivity|].
  eexists. split; [exact Hall|].
  unfold datagrams, dials in *. rewrite !omap_app, Hd1, Hd2.
  split; reflexivity.
Qed.

(** X12. No error response goes unlogged: whenever [ServePass] answers
    with an error, the last thing it has done is to log that status code
    with that message. *)
Theorem ServePass_logs_error (r : Request) (s : State) (code : Z)
    (body : string) :
  fst (ServePass E r s) = http_Error code body ->
  last (trace (snd (ServePass E r s))) = Some (EvLogStatus code body).
Proof.
  rewrite ServePass_run.
  destruct (req_ParseForm r) as [err|form].
  { rewrite Error_run. cbn [fst snd push trace]. intros [= <- <-].
    apply last_snoc. }
  destruct (Find _ _) as [ap|].
  2:{ rewrite Error_run. cbn [fst snd push trace]. intros [= <- <-].
      apply last_snoc. }
  destruct (fst (Answer E ap _ _)) as [err|].
  - rewrite Error_run. cbn [fst snd push trace]. intros [= <- <-].
    apply last_snoc.
  - discriminate.
Qed.

(** *** [Listener] *)

(** X13. [Listener] as [main] calls it, with the [-listen] flag for its
    argument.  A flag [fd:n] with a number [n] that is not negative makes
    it adopt descriptor [n] and bind nothing; a flag [fd:] followed by
    anything that is not a number makes it fail with the error of
    [strconv.Atoi], having opened nothing; any other flag makes it bind a
    TCP socket to the flag and adopt nothing.  (For a negative number
    [os.NewFile] returns no file; nothing is said of that case.) *)
Theorem Listener_of_flag (s : State) :
  (forall fdstr,
     flag_listen E = "fd:" +:+ fdstr ->
     match strconv_Atoi fdstr with
     | inl err => Listener E (flag_listen E) s = (Err (External err), s)
     | inr fd =>
         0 <= fd ->
         exists tr,
           effects_since s (snd (Listener E (flag_listen E) s)) tr /\
           adoptions tr = [fd] /\ binds tr = [] /\
           fst (Listener E (flag_listen E) s) =
             match net_FileListener E fd with
             | Some err => Err (External err)
             | None => Ok (FileListener fd)
             end
     end) /\
  ((forall fdstr, flag_listen E <> "fd:" +:+ fdstr) ->
   exists tr,
     effects_since s (snd (Listener E (flag_listen E) s)) tr /\
     adoptions tr = [] /\ binds tr = [("tcp", flag_listen E)] /\
     fst (Listener E (flag_listen E) s) =
       match net_Listen E "tcp" (flag_listen E) with
       | Some err => Err (External err)
       | None => Ok (TCPListener (flag_listen E))
       end).
Proof.
  destruct (Listener_by_flag E (flag_listen E) s) as [Hfd Htcp]. split.
  - intros fdstr Hfl. specialize (Hfd fdstr Hfl).
    destruct (strconv_Atoi fdstr) as [err|fd]; [exact Hfd|].
    intros _. destruct Hfd as [Hres Heff]. eexists. split; [exact Heff|].
    repeat split; [reflexivity..|exact Hres].
  - intros Hno. destruct (Htcp Hno) as [Hres Heff].
    eexists. split; [exact Heff|]. repeat split; [reflexivity..|exact Hres].
Qed.

(** X14. [Listener] goes one way only, whatever its argument and the
    flag: it adopts a descriptor or binds an address, never both; it
    returns a listener only after one of the two; and a file it has
    opened is closed again before it returns, whether the adoption
    succeeded or not. *)
Theorem Listener_one_way (addr : string) (s : State) :
  exists tr,
    effects_since s (snd (Listener E addr s)) tr /\
    (length (adoptions tr) + length (binds tr) <= 1)%nat /\
    (forall l, fst (Listener E addr s) = Ok l ->
               (length (adoptions tr) + length (binds tr) = 1)%nat) /\
    (forall fd name, EvNewFile fd name ∈ tr ->
                     last tr = Some (EvFileClose fd)).
Proof.
  unfold Listener.
  destruct (CutPrefix (flag_listen E) "fd:") as [fdstr [|]].
  - destruct (strconv_Atoi fdstr) as [err|fd].
    + exists []. split; [apply effects_since_refl|].
      split; [cbn; lia|]. split; [discriminate|].
      intros fd name Hin. apply elem_of_nil in Hin. destruct Hin.
    + exists [EvNewFile fd (flag_listen E); EvFileListener fd; EvFileClose fd].
      split.
      { unfold effects_since, bind, emit, ret. cbn.
        rewrite <- !app_assoc. reflexivity. }
      split; [cbn; lia|]. split; [reflexivity|].
      intros fd' name Hin.
      apply elem_of_cons in Hin as [[= -> _]|Hin]; [reflexivity|].
      apply elem_of_cons in Hin as [[=]|Hin].
      apply elem_of_cons in Hin as [[=]|Hin].
      apply elem_of_nil in Hin. destruct Hin.
  - exists [EvListen "tcp" addr]. split.
    { unfold effects_since, bind, emit, ret. cbn.
      destruct (net_Listen E "tcp" addr); reflexivity. }
    split; [cbn; lia|]. split; [reflexivity|].
    intros fd name Hin.
    apply elem_of_cons in Hin as [[=]|Hin].
    apply elem_of_nil in Hin. destruct Hin.
Qed.

(** *** The idle handler *)

Lemma IsExpired_frame (ts : list Timer) (a : Askpass) (s : State) :
  IsExpired E a (with_timers ts s) =
  (fst (IsExpired E a s), with_timers ts (snd (IsExpired E a s))).
Proof.
  rewrite !IsExpired_run. cbn [ticks with_timers].
  destruct (Time_IsZero _); [reflexivity|].
  destruct (Time_After _ _); reflexivity.
Qed.

Lemma NewAskpass_frame (ts : list Timer) (name : string) (s : State) :
  NewAskpass E name (with_timers ts s) =
  (fst (NewAskpass E name s), with_timers ts (snd (NewAskpass E name s))).
Proof.
  rewrite !NewAskpass_run.
  destruct (parsed E (ask_path E name)) as [ap [err|]]; [reflexivity|].
  change (push (EvLoad (ask_path E name)) (with_timers ts s))
    with (with_timers ts (push (EvLoad (ask_path E name)) s)).
  rewrite IsExpired_frame.
  destruct (IsExpired E ap _) as [[err|] s']; reflexivity.
Qed.

Lemma NewAskers_range_frame (ts : list Timer) (d : list DirEntry)
    (out : Askers) (s : State) :
  NewAskers_range E d out (with_timers ts s) =
  (fst (NewAskers_range E d out s),
   with_timers ts (snd (NewAskers_range E d out s))).
Proof.
  revert out s. induction d as [|entry d IH]; intros out s; [reflexivity|].
  rewrite !NewAskers_range_cons.
  destruct (HasPrefix _ _ && negb _); [|apply IH].
  rewrite NewAskpass_frame.
  destruct (NewAskpass E (Name entry) s) as [[ap|err] s']; cbn [fst snd].
  - apply IH.
  - change (push (EvLogErr err) (with_timers ts s'))
      with (with_timers ts (push (EvLogErr err) s')).
    apply IH.
Qed.

Lemma NewAskers_frame (ts : list Timer) (s : State) :
  NewAskers E (with_timers ts s) =
  (fst (NewAskers E s), with_timers ts (snd (NewAskers E s))).
Proof.
  rewrite !NewAskers_run.
  destruct (os_ReadDir E (flag_askDir E)) as [err|d]; [reflexivity|].
  change (push (EvReadDir (flag_askDir E)) (with_timers ts s))
    with (with_timers ts (push (EvReadDir (flag_askDir E)) s)).
  apply NewAskers_range_frame.
Qed.

Lemma Answer_frame (ts : list Timer) (a : Askpass) (str : string)
    (s : State) :
  Answer E a str (with_timers ts s) =
  (fst (Answer E a str s), with_timers ts (snd (Answer E a str s))).
Proof.
  rewrite !Answer_run.
  destruct (net_Dial E "unixgram" (Socket a)); reflexivity.
Qed.

(** [ServePass] neither looks at the timers nor touches them. *)
Lemma ServePass_frame (ts : list Timer) (r : Request) (s : State) :
  ServePass E r (with_timers ts s) =
  (fst (ServePass E r s), with_timers ts (snd (ServePass E r s))).
Proof.
  rewrite !ServePass_run.
  destruct (req_ParseForm r) as [err|form]; [reflexivity|].
  rewrite NewAskers_frame. cbn [fst snd].
  destruct (Find _ _) as [ap|]; [|reflexivity].
  rewrite Answer_frame. cbn [fst snd].
  destruct (fst (Answer E ap _ _)); reflexivity.
Qed.

Lemma NewIdleHandler_run (d : Duration)
    (shutdownFunc : Context -> M (option error)) (handler : Handler)
    (s : State) :
  0 < d ->
  NewIdleHandler d shutdownFunc handler s =
  ((fun r => Timer_Reset (length (timers s)) d ;;; handler r, Some (ctxs s)),
   {| ticks := ticks s; trace := trace s;
      timers := timers s ++
                [{| timer_d := d; timer_f := IdleShutdown d (ctxs s);
                    timer_armed := true |}];
      ctxs := S (ctxs s) |}).
Proof.
  intros Hd. unfold NewIdleHandler. destruct (Z.ltb_spec 0 d); [|lia].
  reflexivity.
Qed.

(** X15. A negative idle duration disables the idle handler as zero
    does: [NewIdleHandler] returns the handler it was given and the [nil]
    channel and changes nothing, and with no timer around no schedule of
    requests and expiries runs a shutdown callback. *)
Theorem NewIdleHandler_not_positive (d : Duration)
    (shutdownFunc : Context -> M (option error)) (handler : Handler)
    (sched : list Step) (s : State) :
  d <= 0 ->
  timers s = [] ->
  (forall r s', timers s' = [] -> timers (snd (handler r s')) = []) ->
  NewIdleHandler d shutdownFunc handler s = ((handler, None), s) /\
  fst (serve E shutdownFunc handler sched s) = 0%nat.
Proof.
  intros Hd Ht Hh. split.
  - unfold NewIdleHandler. destruct (Z.ltb_spec 0 d); [lia|reflexivity].
  - apply serve_no_timers; assumption.
Qed.

(** X16. The idle handler in front of [ServePass] answers every request
    as [ServePass] does and has the same effects; the one difference is
    that its timer is set to the idle duration again, and armed. *)
Theorem idle_handler_transparent (d : Duration)
    (shutdownFunc : Context -> M (option error)) (s : State)
    (r : Request) (s2 : State) :
  0 < d ->
  fst (fst (NewIdleHandler d shutdownFunc (ServePass E) s)) r s2 =
  (fst (ServePass E r s2),
   with_timers (alter (rearmed d) (length (timers s)) (timers s2))
     (snd (ServePass E r s2))).
Proof.
  intros Hd. rewrite NewIdleHandler_run by exact Hd. cbn [fst].
  rewrite bind_run. cbn [Timer_Reset fst snd].
  apply (ServePass_frame (alter (rearmed d) (length (timers s)) (timers s2))
           r s2).
Qed.

(** The expiry of an armed timer of the idle handler. *)
Lemma expire_armed (shutdownFunc : Context -> M (option error)) (t : nat)
    (tm : Timer) (d : Duration) (c : nat) (s : State) :
  timers s !! t = Some tm -> timer_armed tm = true ->
  timer_f tm = IdleShutdown d c ->
  expire E shutdownFunc t s =
  (true,
   push (EvCancel c)
     (snd (shutdownFunc
             (ctx_WithTimeout (time_clock E (ticks s) + 30000000000))
             (tick (push (EvLogIdle d 30000000000) (snd (disarm t s))))))).
Proof.
  intros Hl Ha Hf. unfold expire. rewrite Hl, Ha, Hf.
  unfold run_Callback.
  repeat (rewrite bind_run; cbn [disarm emit time_Now ret fst snd]).
  reflexivity.
Qed.

Lemma expire_disarmed (shutdownFunc : Context -> M (option error)) (t : nat)
    (tm : Timer) (s : State) :
  timers s !! t = Some tm -> timer_armed tm = false ->
  expire E shutdownFunc t s = (false, s).
Proof. intros Hl Ha. unfold expire. rewrite Hl, Ha. reflexivity. Qed.

(** X17. What the expiry of the idle timer does, for any shutdown
    function: it logs, calls the shutdown function with a context whose
    deadline is thirty seconds after the clock reading it takes, and
    cancels the context of the completion channel only when that call has
    returned, whatever it returned. *)
Theorem idle_expiry (d : Duration)
    (shutdownFunc : Context -> M (option error)) (handler : Handler)
    (s : State) :
  0 < d ->
  let s1 := snd (NewIdleHandler d shutdownFunc handler s) in
  let t := length (timers s) in
  snd (fst (NewIdleHandler d shutdownFunc handler s)) = Some (ctxs s) /\
  expire E shutdownFunc t s1 =
  (true,
   push (EvCancel (ctxs s))
     (snd (shutdownFunc
             (ctx_WithTimeout (time_clock E (ticks s) + 30000000000))
             (tick (push (EvLogIdle d 30000000000) (snd (disarm t s1))))))).
Proof.
  intros Hd. rewrite NewIdleHandler_run by exact Hd. cbn [fst snd].
  split; [reflexivity|].
  set (tm := {| timer_d := d; timer_f := IdleShutdown d (ctxs s);
                timer_armed := true |}).
  set (s1 := {| ticks := ticks s; trace := trace s;
                timers := timers s ++ [tm]; ctxs := S (ctxs s) |}).
  rewrite (expire_armed shutdownFunc (length (timers s)) tm d (ctxs s) s1);
    [reflexivity| |reflexivity|reflexivity].
  cbn [s1 timers]. rewrite lookup_app_r by reflexivity.
  rewrite Nat.sub_diag. reflexivity.
Qed.

(** X18. The idle timer expires once: when it has expired, it does not
    expire again by itself.  But every request the idle handler serves
    arms it again, also after it has expired, so that it expires, and
    calls the shutdown function, once more. *)
Theorem idle_timer_rearmed (d : Duration)
    (shutdownFunc : Context -> M (option error)) (handler : Handler)
    (s : State) (r : Request) :
  0 < d ->
  (forall ctx s', timers (snd (shutdownFunc ctx s')) = timers s') ->
  (forall r' s', timers (snd (handler r' s')) = timers s') ->
  let idle := fst (fst (NewIdleHandler d shutdownFunc handler s)) in
  let t := length (timers s) in
  let expired :=
    snd (expire E shutdownFunc t
           (snd (NewIdleHandler d shutdownFunc handler s))) in
  fst (expire E shutdownFunc t expired) = false /\
  fst (expire E shutdownFunc t (snd (idle r expired))) = true.
Proof.
  intros Hd Hf Hh. rewrite NewIdleHandler_run by exact Hd. cbn [fst snd].
  set (tm := {| timer_d := d; timer_f := IdleShutdown d (ctxs s);
                timer_armed := true |}).
  set (s1 := {| ticks := ticks s; trace := trace s;
                timers := timers s ++ [tm]; ctxs := S (ctxs s) |}).
  assert (Hl1 : timers s1 !! length (timers s) = Some tm).
  { cbn [s1 timers]. rewrite lookup_app_r by reflexivity.
    rewrite Nat.sub_diag. reflexivity. }
  rewrite (expire_armed shutdownFunc _ tm d (ctxs s) s1 Hl1 eq_refl eq_refl).
  cbn [snd].
  set (s2 := push (EvCancel (ctxs s)) _).
  assert (Hl2 : timers s2 !! length (timers s) =
                Some {| timer_d := d; timer_f := IdleShutdown d (ctxs s);
                        timer_armed := false |}).
  { unfold s2. cbn [push timers]. rewrite Hf. cbn [tick push disarm snd timers].
    rewrite list_lookup_alter_eq, Hl1. reflexivity. }
  split.
  - rewrite (expire_disarmed shutdownFunc _ _ s2 Hl2 eq_refl). reflexivity.
  - rewrite bind_run. cbn [Timer_Reset fst snd].
    rewrite (expire_armed shutdownFunc _ tm d (ctxs s));
      [reflexivity| |reflexivity|reflexivity].
    rewrite Hh. cbn [timers]. rewrite list_lookup_alter_eq, Hl2. reflexivity.
Qed.

End MoreTheory.

(** ** Properties of the package builder *)

Section BuildDebTheory.

Import BuildDeb.

Variable w : World.

Lemma load_run (f : RPMFile) :
  Body f = None -> Name f <> "" ->
  load w f =
  match os_ReadFile w (rel_path f) with
  | inr body => ([CallReadFile (rel_path f)], inr (with_Body f body))
  | inl err =>
      match os_ReadFile w (base_name f) with
      | inr body =>
          ([CallReadFile (rel_path f); CallReadFile (base_name f)],
           inr (with_Body f body))
      | inl _ =>
          ([CallReadFile (rel_path f); CallReadFile (base_name f);
            CallFatal err], inl (Fatal err))
      end
  end.
Proof.
  intros Hb Hn. unfold load, base_name, rel_path. rewrite Hb.
  destruct (Name f) as [|c rest]; [contradiction|]. reflexivity.
Qed.

(** The files of the package come without a body and with a name. *)
Lemma files_unloaded :
  Forall (fun f => Body f = None /\ Name f <> "") files.
Proof. repeat constructor; discriminate. Qed.

Lemma added_app (tr1 tr2 : list Call) :
  added (tr1 ++ tr2) = added tr1 ++ added tr2.
Proof. apply omap_app. Qed.

Lemma reads_app (tr1 tr2 : list Call) :
  reads (tr1 ++ tr2) = reads tr1 ++ reads tr2.
Proof. apply omap_app. Qed.

(** The loop over files that are all in the tree. *)
Lemma add_files_in_tree (fs : list RPMFile) :
  Forall (fun f => Body f = None /\ Name f <> "") fs ->
  (forall f, f ∈ fs -> exists body, in_tree w f body) ->
  snd (add_files w fs) = None /\
  Forall2 (fun f g => exists body, in_tree w f body /\ g = with_Body f body)
          fs (added (fst (add_files w fs))) /\
  Forall (fun c => is_output c = false) (fst (add_files w fs)).
Proof.
  induction 1 as [|f fs [Hb Hn] _ IH]; intros Hin.
  - repeat split; constructor.
  - destruct IH as (IH1 & IH2 & IH3).
    { intros g Hg. apply Hin. right. exact Hg. }
    destruct (Hin f) as [body Hbody]; [left|].
    cbn [add_files]. rewrite (load_run f Hb Hn).
    destruct (add_files w fs) as [tr' exit]. cbn [fst snd] in *.
    destruct Hbody as [Hr|[[err Hr] Hr2]]; rewrite Hr; [|rewrite Hr2];
      cbn [fst snd]; (split; [exact IH1|]); (split;
        [constructor; [exists body; split; [|reflexivity]|exact IH2]
        |repeat (constructor; [reflexivity|]); exact IH3]).
    + left. exact Hr.
    + right. split; [exists err; exact Hr|exact Hr2].
Qed.

(** The loop over files, in general: it makes no call that creates or
    writes the package, never panics, and reads nothing but the two paths
    of its files. *)
Lemma add_files_calls (fs : list RPMFile) :
  Forall (fun f => Body f = None /\ Name f <> "") fs ->
  Forall (fun c => is_output c = false) (fst (add_files w fs)) /\
  snd (add_files w fs) <> Some Panicked /\
  (forall p, p ∈ reads (fst (add_files w fs)) ->
             exists f, f ∈ fs /\ (p = rel_path f \/ p = base_name f)).
Proof.
  induction 1 as [|f fs [Hb Hn] _ (IH1 & IH2 & IH3)].
  - cbn. repeat split; [constructor|discriminate|].
    intros p Hp. apply elem_of_nil in Hp. destruct Hp.
  - cbn [add_files]. rewrite (load_run f Hb Hn).
    assert (Hlift : forall p, p ∈ reads (fst (add_files w fs)) ->
              exists g, g ∈ f :: fs /\ (p = rel_path g \/ p = base_name g)).
    { intros p Hp. destruct (IH3 p Hp) as (g & Hg & Hpg).
      exists g. split; [right; exact Hg|exact Hpg]. }
    assert (Hrel : forall p, p = rel_path f \/ p = base_name f ->
              exists g, g ∈ f :: fs /\ (p = rel_path g \/ p = base_name g)).
    { intros p Hp. exists f. split; [left|exact Hp]. }
    destruct (add_files w fs) as [tr' exit]. cbn [fst snd] in *.
    destruct (os_ReadFile w (rel_path f)) as [err|body].
    + destruct (os_ReadFile w (base_name f)) as [err2|body]; cbn [fst snd].
      * split; [repeat constructor|]. split; [discriminate|].
        intros p Hp. cbn in Hp.
        apply elem_of_cons in Hp as [->|Hp]; [apply Hrel; auto|].
        apply elem_of_cons in Hp as [->|Hp]; [apply Hrel; auto|].
        apply elem_of_nil in Hp. destruct Hp.
      * split; [repeat (constructor; [reflexivity|]); exact IH1|].
        split; [exact IH2|]. intros p Hp. cbn in Hp.
        apply elem_of_cons in Hp as [->|Hp]; [apply Hrel; auto|].
        apply elem_of_cons in Hp as [->|Hp]; [apply Hrel; auto|].
        apply Hlift. exact Hp.
    + cbn [fst snd].
      split; [repeat (constructor; [reflexivity|]); exact IH1|].
      split; [exact IH2|]. intros p Hp. cbn in Hp.
      apply elem_of_cons in Hp as [->|Hp]; [apply Hrel; auto|].
      apply Hlift. exact Hp.
Qed.

(** The loop over files of which one is in neither place: it ends with
    the error of the full path of the first such file. *)
Lemma add_files_missing (fs : list RPMFile) (f : RPMFile) :
  Forall (fun f => Body f = None /\ Name f <> "") fs ->
  f ∈ fs ->
  (exists err, os_ReadFile w (rel_path f) = inl err) ->
  (exists err, os_ReadFile w (base_name f) = inl err) ->
  exists g err,
    g ∈ fs /\ os_ReadFile w (rel_path g) = inl err /\
    (exists err2, os_ReadFile w (base_name g) = inl err2) /\
    snd (add_files w fs) = Some (Fatal err) /\
    last (fst (add_files w fs)) = Some (CallFatal err).
Proof.
  intros Hall Hin Hr Hb. revert Hin.
  induction Hall as [|g fs [Hgb Hgn] _ IH]; intros Hin.
  { apply elem_of_nil in Hin. destruct Hin. }
  cbn [add_files]. rewrite (load_run g Hgb Hgn).
  assert (Hrest : f ∈ fs ->
            forall tr0 g0,
            exists g' err, g' ∈ g :: fs /\
              os_ReadFile w (rel_path g') = inl err /\
              (exists err2, os_ReadFile w (base_name g') = inl err2) /\
              snd (let (tr', exit) := add_files w fs in
                   (tr0 ++ CallAddFile g0 :: tr', exit)) = Some (Fatal err) /\
              last (fst (let (tr', exit) := add_files w fs in
                         (tr0 ++ CallAddFile g0 :: tr', exit))) =
              Some (CallFatal err)).
  { intros Hf tr0 g0. destruct (IH Hf) as (g' & err & Hg' & H1 & H2 & H3 & H4).
    exists g', err. split; [right; exact Hg'|].
    split; [exact H1|]. split; [exact H2|].
    destruct (add_files w fs) as [tr' exit]. cbn [fst snd] in *.
    split; [exact H3|].
    change (tr0 ++ CallAddFile g0 :: tr') with (tr0 ++ [CallAddFile g0] ++ tr').
    rewrite !last_app, H4. reflexivity. }
  destruct (os_ReadFile w (rel_path g)) as [err|body] eqn:Hrg.
  - destruct (os_ReadFile w (base_name g)) as [err2|body] eqn:Hbg.
    + exists g, err. split; [left|]. split; [exact Hrg|].
      split; [exists err2; exact Hbg|]. split; reflexivity.
    + apply elem_of_cons in Hin as [->|Hin].
      * destruct Hb as [e He]. congruence.
      * apply (Hrest Hin
                 [CallReadFile (rel_path g); CallReadFile (base_name g)]).
  - apply elem_of_cons in Hin as [->|Hin].
    + destruct Hr as [e He]. congruence.
    + apply (Hrest Hin [CallReadFile (rel_path g)]).
Qed.

(** X19. When the library and the output file play along and the working
    tree holds every file of the package, under its full path or else
    under its base name, [main] returns, and it has handed [rpmpack] the
    five files in their order, each with its mode and owner and the body
    from the tree, then the two scriptlets, and has created and written
    [askpass-http.rpm] last. *)
Theorem BuildDeb_packages_tree :
  rpmpack_NewRPM w (metadata w) = None ->
  os_Create w rpmFile = None ->
  rpm_Write w = None ->
  (forall f, f ∈ files -> exists body, in_tree w f body) ->
  snd (main w) = Returned /\
  Forall2 (fun f g => exists body, in_tree w f body /\ g = with_Body f body)
          files (added (fst (main w))) /\
  exists tr,
    fst (main w) =
    CallNewRPM (metadata w) :: tr ++
    [CallAddPosttrans posttrans; CallAddPreun preun;
     CallCreate rpmFile; CallWrite rpmFile] /\
    Forall (fun c => is_output c = false) tr.
Proof.
  intros Hnew Hcreate Hwrite Htree. unfold main.
  rewrite Hnew, Hcreate, Hwrite.
  destruct (add_files_in_tree files files_unloaded Htree) as (H1 & H2 & H3).
  destruct (add_files w files) as [tr exit]. cbn [fst snd] in *. subst exit.
  cbn [fst snd]. split; [reflexivity|]. split.
  - change (CallNewRPM (metadata w) :: ?l) with ([CallNewRPM (metadata w)] ++ l).
    rewrite !added_app. cbn. rewrite ?app_nil_r. exact H2.
  - exists tr. split; [|exact H3]. cbn [app]. rewrite <- app_assoc.
    reflexivity.
Qed.

(** X20. When a file of the package is in neither place, [main] ends in
    [log.Fatal], and the error it reports is the one for a full path, not
    the one for the base name tried after it; the package file is then
    neither created nor written. *)
Theorem BuildDeb_missing_file (f : RPMFile) :
  rpmpack_NewRPM w (metadata w) = None ->
  f ∈ files ->
  (exists err, os_ReadFile w (rel_path f) = inl err) ->
  (exists err, os_ReadFile w (base_name f) = inl err) ->
  exists g err,
    g ∈ files /\ os_ReadFile w (rel_path g) = inl err /\
    snd (main w) = Fatal err /\
    last (fst (main w)) = Some (CallFatal err) /\
    Forall (fun c => is_output c = false) (fst (main w)).
Proof.
  intros Hnew Hin Hr Hb. unfold main. rewrite Hnew.
  destruct (add_files_missing files f files_unloaded Hin Hr Hb)
    as (g & err & Hg & Hrg & _ & Hexit & Hlast).
  destruct (add_files_calls files files_unloaded) as (Hcalls & _ & _).
  destruct (add_files w files) as [tr exit]. cbn [fst snd] in *. subst exit.
  exists g, err. split; [exact Hg|]. split; [exact Hrg|].
  cbn [fst snd]. split; [reflexivity|]. split.
  - change (CallNewRPM (metadata w) :: tr)
      with ([CallNewRPM (metadata w)] ++ tr).
    rewrite last_app, Hlast. reflexivity.
  - constructor; [reflexivity|exact Hcalls].
Qed.

(** X21. Whatever the working tree holds, [main] does not panic on the
    name of a file, and every path it reads lies below the working
    directory: none begins with a slash. *)
Theorem BuildDeb_reads_below (p : string) :
  snd (main w) <> Panicked /\
  (p ∈ reads (fst (main w)) -> HasPrefix p "/" = false).
Proof.
  destruct (add_files_calls files files_unloaded) as (_ & Hpanic & Hreads).
  assert (Hfiles : forall q, q ∈ reads (fst (add_files w files)) ->
                             HasPrefix q "/" = false).
  { intros q Hq. destruct (Hreads q Hq) as (f & Hf & Hqf).
    unfold files in Hf.
    repeat (apply elem_of_cons in Hf as [->|Hf];
            [destruct Hqf as [->| ->]; vm_compute; reflexivity|]).
    apply elem_of_nil in Hf. destruct Hf. }
  unfold main.
  destruct (rpmpack_NewRPM w (metadata w)) as [err|].
  { split; [discriminate|]. intros Hp. cbn in Hp.
    apply elem_of_nil in Hp. destruct Hp. }
  destruct (add_files w files) as [tr [exit|]]; cbn [fst snd] in *.
  { split; [congruence|]. intros Hp. apply Hfiles. exact Hp. }
  assert (Hsame : forall tail, Forall (fun c => match c with
                                          | CallReadFile _ => False
                                          | _ => True
                                          end) tail ->
            reads (CallNewRPM (metadata w) :: tr ++ tail) = reads tr).
  { intros tail Ht.
    change (CallNewRPM (metadata w) :: tr ++ tail)
      with ([CallNewRPM (metadata w)] ++ tr ++ tail).
    rewrite !reads_app. cbn [reads omap list_omap app].
    replace (reads tail) with (@nil string); [apply app_nil_r|].
    symmetry. induction Ht as [|c tail Hc _ IHt]; [reflexivity|].
    destruct c; cbn in *; try contradiction; exact IHt. }
  destruct (os_Create w rpmFile) as [err|].
  { split; [discriminate|]. cbn [fst snd app]. rewrite <- app_assoc, Hsame.
    - apply Hfiles.
    - repeat constructor. }
  destruct (rpm_Write w) as [err|]; (split; [discriminate|]);
    cbn [fst snd app]; rewrite <- app_assoc, Hsame; try apply Hfiles;
    repeat constructor.
Qed.

End BuildDebTheory.

(** ** What a response and an error tell *)

Section Outcomes.

Variable E : Env.

(** X22. A redirect means that the answer was relayed: [ServePass]
    redirects, to [/] with 303, only when the name resolved to a
    descriptor, the dial to its socket succeeded, the write of [+] and
    the answer returned no error and a count not below the length of the
    answer, and the socket has been closed. *)
Theorem ServePass_redirect (r : Request) (s : State) (url : string)
    (code : Z) :
  fst (ServePass E r s) = http_Redirect url code ->
  url = "/" /\ code = 303 /\
  exists ap sock,
    fst (NewAskers E s) !! FormValue r "ask" = Some ap /\
    net_Dial E "unixgram" (Socket ap) = inr sock /\
    snd (conn_Write sock (String "+" (FormValue r "answer"))) = None /\
    len (FormValue r "answer") <=
      fst (conn_Write sock (String "+" (FormValue r "answer"))) /\
    last (trace (snd (ServePass E r s))) = Some (EvClose (conn_raddr sock)).
Proof.
  rewrite ServePass_run, Find_lookup.
  destruct (req_ParseForm r) as [err|form]; [discriminate|].
  destruct (fst (NewAskers E s) !! FormValue r "ask") as [ap|];
    [|discriminate].
  destruct (fst (Answer E ap (FormValue r "answer") (snd (NewAskers E s))))
    as [err|] eqn:Ha; [discriminate|].
  cbn [fst snd]. intros [= <- <-]. split; [reflexivity|].
  split; [reflexivity|]. exists ap.
  rewrite Answer_run in Ha |- *.
  destruct (net_Dial E "unixgram" (Socket ap)) as [e|sock]; [discriminate|].
  exists sock. split; [reflexivity|]. split; [reflexivity|].
  cbn [fst] in Ha.
  destruct (conn_Write sock (String "+" (FormValue r "answer")))
    as [n [e|]]; [discriminate|]. cbn [fst snd].
  destruct (Z.ltb_spec n (len (FormValue r "answer"))); [discriminate|].
  split; [reflexivity|]. split; [assumption|]. apply last_snoc.
Qed.

(** X23. The errors of [NewAskpass] are of three kinds that [errors.Is]
    tells apart: the error of the loader, when the file does not load; an
    error that wraps [ErrMissingKey], when the file loads without a
    message or a socket; and an error that wraps [ErrExpired], when it
    loads with both and its expiry time lies before the clock reading. *)
Theorem NewAskpass_error_kinds (name : string) (s : State) (err : error) :
  fst (NewAskpass E name s) = Err err ->
  match ini_Load E (ask_path E name) with
  | inl e =>
      err = External e /\
      errors_Is err ErrMissingKey = false /\ errors_Is err ErrExpired = false
  | inr f =>
      (errors_Is err ErrMissingKey = true /\
       errors_Is err ErrExpired = false /\
       (ini_String f "Ask" "Message" = "" \/
        ini_String f "Ask" "Socket" = "")) \/
      (errors_Is err ErrExpired = true /\
       errors_Is err ErrMissingKey = false /\
       ini_String f "Ask" "Message" <> "" /\
       ini_String f "Ask" "Socket" <> "" /\
       exists t, time_ParseRFC3339 E (ini_String f "Ask" "NotAfter") = Some t /\
                 t <> 0 /\ t < time_clock E (ticks s))
  end.
Proof.
  rewrite NewAskpass_run. unfold parsed. rewrite UnmarshalINI_run.
  destruct (ini_Load E (ask_path E name)) as [e|f]; cbn [fst].
  { intros [= <-]. repeat split. }
  cbn [Message Socket check_keys].
  destruct (decide (ini_String f "Ask" "Message" = "")) as [Hm|Hm].
  { intros [= <-]. left. repeat split. left. exact Hm. }
  destruct (decide (ini_String f "Ask" "Socket" = "")) as [Hs|Hs].
  { intros [= <-]. left. repeat split. right. exact Hs. }
  rewrite IsExpired_run. cbn [NotAfter ticks push]. unfold ini_MustTime.
  destruct (time_ParseRFC3339 E (ini_String f "Ask" "NotAfter")) as [t|];
    cbn [default]; unfold id, Time_IsZero, Time_After;
    [|rewrite Z.eqb_refl; cbn [fst]; discriminate].
  destruct (Z.eqb_spec t 0) as [Hz|Hz]; [cbn [fst]; discriminate|].
  destruct (Z.ltb_spec t (time_clock E (ticks s))) as [Hlt|Hge];
    cbn [fst]; [|discriminate].
  intros [= <-]. right. repeat split; try assumption.
  exists t. auto.
Qed.

End Outcomes.

(** ** These properties in the concrete worlds *)

Lemma IsExpired_monotone_witness :
  fst (IsExpired ticking_env old (tick (tick (tick state0)))) <> None.
Proof.
  apply (IsExpired_monotone ticking_env old (tick (tick state0))).
  - vm_compute. discriminate.
  - vm_compute. discriminate.
Defined.

Lemma NewAskpass_unparsed_NotAfter_witness :
  NewAskpass test_env "ask.abc123" state0 =
  (Ok abc123, push (EvLoad "/run/systemd/ask-password/ask.abc123") state0).
Proof.
  apply (NewAskpass_unparsed_NotAfter test_env "ask.abc123"
           (ini_Ask [("Message", "Enter passphrase");
                     ("Socket", "/tmp/test.sock")]) state0).
  - reflexivity.
  - vm_compute. discriminate.
  - vm_compute. discriminate.
  - vm_compute. reflexivity.
Defined.

Lemma UnmarshalINI_names_first_key_witness :
  errString <$> snd (fst (UnmarshalINI test_env Askpass_zero
                            "/run/systemd/ask-password/ask.nosock" state0)) =
  Some "missing key: Socket".
Proof.
  destruct (UnmarshalINI_names_first_key test_env Askpass_zero
              "/run/systemd/ask-password/ask.nosock"
              (ini_Ask [("Message", "Enter passphrase")]) state0 eq_refl)
    as [_ H].
  apply H.
  - vm_compute. discriminate.
  - vm_compute. reflexivity.
Defined.

Lemma NewAskers_invariant_witness :
  HasPrefix "ask.abc123" "ask." = true /\
  Path abc123 = ask_path test_env "ask.abc123" /\
  Message abc123 <> "" /\ Socket abc123 <> "".
Proof.
  apply (NewAskers_invariant test_env state0 "ask.abc123" abc123).
  vm_compute. reflexivity.
Defined.

Lemma Answer_error_witness :
  fst (Answer (test_env_with "[::]:8080" partial_sock test_ReadDir)
         abc123 "hunter2" state0) =
  Some (External (ExtErr "short write")).
Proof.
  pose proof (Answer_error (test_env_with "[::]:8080" partial_sock test_ReadDir)
                abc123 "hunter2" state0) as H.
  change (net_Dial (test_env_with "[::]:8080" partial_sock test_ReadDir)
            "unixgram" (Socket abc123))
    with (@inr ExtError Conn (partial_sock "/tmp/test.sock")) in H.
  cbv beta iota in H. destruct H as [H _].
  apply H. reflexivity.
Defined.

Lemma Answer_complete_write_witness :
  fst (Answer test_env abc123 "hunter2" state0) = None.
Proof.
  apply (Answer_complete_write test_env abc123 "hunter2"
           (test_sock "/tmp/test.sock") state0).
  - reflexivity.
  - intros p. cbn [test_sock conn_Write fst snd]. unfold len. split; [lia|].
    split; [lia|]. intros H. destruct (H eq_refl).
  - reflexivity.
Defined.

Lemma ServePass_foreign_name_witness :
  fst (ServePass test_env traversal_post state0) = http_Error 404 "Not found" /\
  exists tr,
    effects_since state0 (snd (ServePass test_env traversal_post state0)) tr /\
    dials tr = [] /\ datagrams tr = [].
Proof.
  apply (ServePass_foreign_name test_env traversal_post
           (list_to_map [("ask", ["../../etc/passwd"]);
                         ("answer", ["hunter2"])]) state0).
  - reflexivity.
  - vm_compute. reflexivity.
Defined.

Lemma ServePass_logs_error_witness :
  last (trace (snd (ServePass test_env bad_post state0))) =
  Some (EvLogStatus 400 "invalid URL escape").
Proof.
  apply (ServePass_logs_error test_env bad_post state0).
  reflexivity.
Defined.

Lemma Listener_of_flag_witness :
  exists tr,
    effects_since state0 (snd (Listener fd_env (flag_listen fd_env) state0)) tr /\
    adoptions tr = [3] /\ binds tr = [] /\
    fst (Listener fd_env (flag_listen fd_env) state0) = Ok (FileListener 3).
Proof.
  destruct (Listener_of_flag fd_env state0) as [H _].
  apply (H "3" eq_refl). vm_compute. discriminate.
Defined.

Lemma Listener_one_way_witness :
  exists tr,
    effects_since state0 (snd (Listener test_env "[::]:8080" state0)) tr /\
    (length (adoptions tr) + length (binds tr) = 1)%nat.
Proof.
  destruct (Listener_one_way test_env "[::]:8080" state0)
    as (tr & Ht & _ & Hok & _).
  exists tr. split; [exact Ht|].
  apply (Hok (TCPListener "[::]:8080")). reflexivity.
Defined.

Lemma NewIdleHandler_not_positive_witness :
  NewIdleHandler (- 5 * Second) (srv_Shutdown test_env) (ServePass test_env)
    state0 = ((ServePass test_env, None), state0) /\
  fst (serve test_env (srv_Shutdown test_env) (ServePass test_env)
         [Arrive hunter2_post; Expire 0%nat] state0) = 0%nat.
Proof.
  apply (NewIdleHandler_not_positive test_env (- 5 * Second)).
  - vm_compute. discriminate.
  - reflexivity.
  - intros r s' Hs'. rewrite ServePass_timers. exact Hs'.
Defined.

Lemma idle_handler_transparent_witness :
  fst (fst (fst (NewIdleHandler (60 * Second) (srv_Shutdown test_env)
                   (ServePass test_env) state0)) hunter2_post state0) =
  http_Redirect "/" 303.
Proof.
  rewrite (idle_handler_transparent test_env (60 * Second)
             (srv_Shutdown test_env) state0 hunter2_post state0).
  - vm_compute. reflexivity.
  - reflexivity.
Defined.

Lemma idle_expiry_witness :
  fst (expire test_env (srv_Shutdown test_env) 0
         (snd (NewIdleHandler (60 * Second) (srv_Shutdown test_env)
                 (ServePass test_env) state0))) = true.
Proof.
  destruct (idle_expiry test_env (60 * Second) (srv_Shutdown test_env)
              (ServePass test_env) state0) as [_ H]; [reflexivity|].
  cbv zeta in H. change (length (timers state0)) with 0%nat in H.
  rewrite H. reflexivity.
Defined.

Lemma idle_timer_rearmed_witness :
  fst (serve test_env (srv_Shutdown test_env)
         (fst (fst (NewIdleHandler (60 * Second) (srv_Shutdown test_env)
                      (ServePass test_env) state0)))
         [Expire 0%nat; Expire 0%nat; Arrive hunter2_post; Expire 0%nat]
         (snd (NewIdleHandler (60 * Second) (srv_Shutdown test_env)
                 (ServePass test_env) state0))) = 2%nat /\
  fst (expire test_env (srv_Shutdown test_env) 0
         (snd (expire test_env (srv_Shutdown test_env) 0
                 (snd (NewIdleHandler (60 * Second) (srv_Shutdown test_env)
                         (ServePass test_env) state0))))) = false.
Proof.
  split; [vm_compute; reflexivity|].
  destruct (idle_timer_rearmed test_env (60 * Second) (srv_Shutdown test_env)
              (ServePass test_env) state0 hunter2_post) as [H _].
  - reflexivity.
  - intros ctx s'. reflexivity.
  - intros r' s'. apply ServePass_timers.
  - exact H.
Defined.

Lemma BuildDeb_packages_tree_witness :
  snd (BuildDeb.main BuildDeb.test_world) = BuildDeb.Returned /\
  map BuildDeb.Body (BuildDeb.added (fst (BuildDeb.main BuildDeb.test_world))) =
  [Some "ELF"; Some "[Path]"; Some "[Socket]"; Some "[Service]";
   Some "#!/bin/bash"].
Proof.
  destruct (BuildDeb_packages_tree BuildDeb.test_world) as [H _];
    [reflexivity|reflexivity|reflexivity| |].
  - intros f Hf. unfold BuildDeb.files in Hf.
    apply elem_of_cons in Hf as [->|Hf];
      [exists "ELF"; right; split; [eexists|]; vm_compute; reflexivity|].
    apply elem_of_cons in Hf as [->|Hf];
      [exists "[Path]"; right; split; [eexists|]; vm_compute; reflexivity|].
    apply elem_of_cons in Hf as [->|Hf];
      [exists "[Socket]"; right; split; [eexists|]; vm_compute; reflexivity|].
    apply elem_of_cons in Hf as [->|Hf];
      [exists "[Service]"; right; split; [eexists|]; vm_compute; reflexivity|].
    apply elem_of_cons in Hf as [->|Hf];
      [exists "#!/bin/bash"; left; vm_compute; reflexivity|].
    apply elem_of_nil in Hf. destruct Hf.
  - split; [exact H|]. vm_compute. reflexivity.
Defined.

Lemma BuildDeb_missing_file_witness :
  exists g err,
    g ∈ BuildDeb.files /\
    snd (BuildDeb.main BuildDeb.broken_world) = BuildDeb.Fatal err /\
    Forall (fun c => BuildDeb.is_output c = false)
           (fst (BuildDeb.main BuildDeb.broken_world)).
Proof.
  destruct (BuildDeb_missing_file BuildDeb.broken_world
              {| BuildDeb.Name := "/usr/lib/systemd/system/askpass-http.socket";
                 BuildDeb.Mode := BuildDeb.octal 6 4 4;
                 BuildDeb.Owner := "root"; BuildDeb.Group := "root";
                 BuildDeb.Body := None |})
    as (g & err & Hg & _ & Hexit & _ & Hout).
  - reflexivity.
  - right. right. left.
  - eexists. vm_compute. reflexivity.
  - eexists. vm_compute. reflexivity.
  - exists g, err. auto.
Defined.

Lemma BuildDeb_reads_below_witness :
  "askpass-http" ∈ BuildDeb.reads (fst (BuildDeb.main BuildDeb.test_world)) /\
  HasPrefix "askpass-http" "/" = false.
Proof.
  destruct (BuildDeb_reads_below BuildDeb.test_world "askpass-http") as [_ H].
  assert (Hin : "askpass-http" ∈
                BuildDeb.reads (fst (BuildDeb.main BuildDeb.test_world)));
    [|split; [exact Hin|exact (H Hin)]].
  assert (Hr : BuildDeb.reads (fst (BuildDeb.main BuildDeb.test_world)) =
               ["usr/bin/askpass-http"; "askpass-http";
                "usr/lib/systemd/system/askpass-http.path";
                "askpass-http.path";
                "usr/lib/systemd/system/askpass-http.socket";
                "askpass-http.socket";
                "usr/lib/systemd/system/askpass-http.service";
                "askpass-http.service";
                "usr/lib/dracut/modules.d/98askpasshttp/module-setup.sh"])
    by (vm_compute; reflexivity).
  rewrite Hr. right. left.
Defined.

Lemma ServePass_redirect_witness :
  exists ap sock,
    fst (NewAskers test_env state0) !! FormValue hunter2_post "ask" = Some ap /\
    net_Dial test_env "unixgram" (Socket ap) = inr sock /\
    len "hunter2" <= fst (conn_Write sock "+hunter2").
Proof.
  destruct (ServePass_redirect test_env hunter2_post state0 "/" 303)
    as (_ & _ & ap & sock & Hl & Hd & _ & Hn & _).
  - vm_compute. reflexivity.
  - exists ap, sock. auto.
Defined.

Lemma NewAskpass_error_kinds_witness :
  fst (NewAskpass test_env "ask.old" state0) =
    Err (Errorf_w ErrExpired ": current time (T) > NotAfter (T)") /\
  errors_Is (Errorf_w ErrExpired ": current time (T) > NotAfter (T)")
    ErrExpired = true /\
  errors_Is (Errorf_w ErrExpired ": current time (T) > NotAfter (T)")
    ErrMissingKey = false.
Proof.
  assert (Hn : fst (NewAskpass test_env "ask.old" state0) =
               Err (Errorf_w ErrExpired ": current time (T) > NotAfter (T)"))
    by (vm_compute; reflexivity).
  split; [exact Hn|].
  pose proof (NewAskpass_error_kinds test_env "ask.old" state0 _ Hn) as H.
  change (ini_Load test_env (ask_path test_env "ask.old"))
    with (@inr ExtError IniFile
            (ini_Ask [("Message", "Enter passphrase");
                      ("Socket", "/tmp/old.sock");
                      ("NotAfter", "T500")])) in H.
  cbv beta iota in H.
  destruct H as [(Hk & _)|(He & Hm & _)].
  - vm_compute in Hk. discriminate.
  - split; assumption.
Defined.

(** ** The registry against the directory, the files and the clock *)

Section RegistryTheory.

Variable E : Env.

Lemma descriptor_of_MustTime (path : string) (f : IniFile) :
  {| Path := path;
     Message := ini_String f "Ask" "Message";
     Icon := ini_String f "Ask" "Icon";
     Socket := ini_String f "Ask" "Socket";
     NotAfter := ini_MustTime E f "Ask" "NotAfter" 0 |} =
  descriptor_of E path f.
Proof.
  unfold descriptor_of, ini_MustTime.
  destruct (time_ParseRFC3339 E (ini_String f "Ask" "NotAfter")); reflexivity.
Qed.

(** What [UnmarshalINI] makes of a file, in terms of the file. *)
Lemma parsed_load (path : string) :
  parsed E path =
  match ini_Load E path with
  | inl e => (Askpass_zero, Some (External e))
  | inr f =>
      (descriptor_of E path f,
       if decide (ini_String f "Ask" "Message" = "")
       then Some (Errorf_w ErrMissingKey ": Message")
       else if decide (ini_String f "Ask" "Socket" = "")
            then Some (Errorf_w ErrMissingKey ": Socket")
            else None)
  end.
Proof.
  unfold parsed. rewrite UnmarshalINI_run. cbn [fst].
  destruct (ini_Load E path) as [e|f]; [reflexivity|].
  cbv zeta. rewrite descriptor_of_MustTime. reflexivity.
Qed.

Lemma parsed_descriptor (path : string) (ap : Askpass) :
  parsed E path = (ap, None) <->
  exists f, ini_Load E path = inr f /\
            ini_String f "Ask" "Message" <> "" /\
            ini_String f "Ask" "Socket" <> "" /\
            ap = descriptor_of E path f.
Proof.
  rewrite parsed_load. destruct (ini_Load E path) as [e|f].
  { split; [discriminate|]. intros (f & Hf & _). discriminate. }
  destruct (decide (ini_String f "Ask" "Message" = "")) as [Hm|Hm].
  { split; [discriminate|]. intros (f' & [= <-] & Hm' & _). contradiction. }
  destruct (decide (ini_String f "Ask" "Socket" = "")) as [Hs|Hs].
  { split; [discriminate|].
    intros (f' & [= <-] & _ & Hs' & _). contradiction. }
  split.
  - intros [= <-]. exists f. auto.
  - intros (f' & [= <-] & _ & _ & ->). reflexivity.
Qed.

Lemma NotAfter_descriptor_of (path1 path2 : string) (f : IniFile) :
  NotAfter (descriptor_of E path1 f) = NotAfter (descriptor_of E path2 f).
Proof. reflexivity. Qed.

(** The clock is read once for a timed entry, and not for another. *)
Lemma after_entry_timed (entry : DirEntry) (s : State) :
  ticks (after_entry E entry s) =
  (ticks s + (if timed E entry then 1 else 0))%nat.
Proof.
  unfold after_entry, timed, candidate. rewrite NewAskers_range_cons.
  destruct (HasPrefix (Name entry) "ask." && negb (IsDir entry));
    [|cbn; lia].
  cbn [andb]. rewrite NewAskpass_run, parsed_load. unfold ask_path.
  destruct (ini_Load E (filepath_Join E (flag_askDir E) (Name entry)))
    as [e|f]; [cbn; lia|].
  destruct (decide (ini_String f "Ask" "Message" = "")); [cbn; lia|].
  destruct (decide (ini_String f "Ask" "Socket" = "")); [cbn; lia|].
  rewrite IsExpired_run. unfold Time_IsZero.
  rewrite (NotAfter_descriptor_of _ "" f).
  destruct (NotAfter (descriptor_of E "" f) =? 0); [cbn; lia|].
  destruct (Time_After _ _); cbn; lia.
Qed.

Lemma reached_ticks (d : list DirEntry) (i : nat) (s : State) :
  ticks (reached E d i s) =
  (ticks s + length (List.filter (timed E) (take i d)))%nat.
Proof.
  revert d s. induction i as [|i IH]; intros d s.
  - rewrite reached_0, take_0. cbn. lia.
  - destruct d as [|entry d].
    + unfold reached. cbn. lia.
    + rewrite reached_S, IH, after_entry_timed. cbn [take List.filter].
      destruct (timed E entry); cbn [length]; lia.
Qed.

Lemma checked_at_reached (d : list DirEntry) (i : nat) (s : State) :
  checked_at E d (ticks s) i = time_clock E (ticks (reached E d i s)).
Proof. unfold checked_at. rewrite reached_ticks. reflexivity. Qed.

(** The entries that the loop finds valid are the prompts. *)
Lemma valid_at_prompt_at (d : list DirEntry) (s : State) (i : nat)
    (name : string) (ap : Askpass) :
  valid_at E d s i name ap <-> prompt_at E d (ticks s) i name ap.
Proof.
  unfold valid_at, prompt_at, ask_path. split.
  - intros (entry & He & Hn & Hp & Hd & Hpar & Hexp).
    apply parsed_descriptor in Hpar as (f & Hf & Hm & Hs & ->).
    exists entry, f. repeat (split; [assumption|]). split; [reflexivity|].
    rewrite checked_at_reached. apply IsExpired_None. exact Hexp.
  - intros (entry & f & He & Hn & Hp & Hd & Hf & Hm & Hs & -> & Hexp).
    exists entry. repeat (split; [assumption|]). split.
    + apply parsed_descriptor. exists f. auto.
    + apply IsExpired_None. rewrite <- checked_at_reached. exact Hexp.
Qed.

(** The entries that are refused are rejected by the loop, with the same
    error. *)
Lemma refused_at_rejected_at (d : list DirEntry) (s : State) (i : nat)
    (name : string) (err : error) :
  refused_at E d (ticks s) i name err -> rejected_at E d s i name err.
Proof.
  unfold refused_at, rejected_at.
  intros (entry & He & Hn & Hp & Hd & Hcase).
  exists entry. repeat (split; [assumption|]).
  rewrite NewAskpass_run, parsed_load. unfold ask_path.
  rewrite checked_at_reached in Hcase.
  destruct (ini_Load E (filepath_Join E (flag_askDir E) name)) as [e|f].
  { subst err. reflexivity. }
  cbv zeta in Hcase. cbn [Message Socket descriptor_of] in Hcase.
  destruct (decide (ini_String f "Ask" "Message" = "")) as [Hm|Hm].
  { destruct Hcase as [[_ ->]|[[Hm' _]|[Hm' _]]];
      [reflexivity|contradiction|contradiction]. }
  destruct (decide (ini_String f "Ask" "Socket" = "")) as [Hs|Hs].
  { destruct Hcase as [[Hm' _]|[(_ & _ & ->)|(_ & Hs' & _)]];
      [contradiction|reflexivity|contradiction]. }
  destruct Hcase as [[Hm' _]|[(_ & Hs' & _)|(_ & _ & Hz & Hlt & ->)]];
    [contradiction|contradiction|].
  change (match time_ParseRFC3339 E (ini_String f "Ask" "NotAfter") with
          | Some t => t
          | None => 0
          end)
    with (NotAfter (descriptor_of E (filepath_Join E (flag_askDir E) name) f))
    in *.
  set (ap := descriptor_of E (filepath_Join E (flag_askDir E) name) f) in *.
  rewrite IsExpired_run. cbn [ticks push].
  unfold Time_IsZero, Time_After.
  destruct (Z.eqb_spec (NotAfter ap) 0) as [Hz'|_]; [contradiction|].
  destruct (Z.ltb_spec (NotAfter ap) (time_clock E (ticks (reached E d i s))))
    as [_|Hge]; [reflexivity|lia].
Qed.

(** C4. Whatever the descriptor directory holds, [NewAskers] returns a
    registry.  When the directory cannot be listed, the failure is logged
    and the registry is empty: every lookup in it finds nothing.  When it
    can, the registry maps [name] to [ap] exactly when some entry of the
    listing is called [name], carries the prefix [ask.], is not a
    directory, has a file that loads with a message and a socket and
    describes [ap], and [ap] has no expiry time or one that is not before
    the clock reading taken for that entry.  Every other entry with the
    prefix that is not a directory is refused, for the failure of the
    load, the missing key or the expiry, and each that is refused leaves
    its error in the log without stopping the enumeration. *)
Theorem NewAskers_exact (s : State) :
  let s0 := push (EvReadDir (flag_askDir E)) s in
  match os_ReadDir E (flag_askDir E) with
  | inl err =>
      NewAskers E s = (∅, push (EvLogErr (External err)) s0) /\
      forall name, Find (fst (NewAskers E s)) name = None
  | inr d =>
      (forall name ap,
         fst (NewAskers E s) !! name = Some ap <->
         exists i, prompt_at E d (ticks s) i name ap) /\
      (forall i name err,
         refused_at E d (ticks s) i name err ->
         exists tr, effects_since s0 (snd (NewAskers E s)) tr /\
                    EvLogErr err ∈ tr) /\
      (forall i entry,
         d !! i = Some entry -> candidate entry = true ->
         (exists ap, prompt_at E d (ticks s) i (Name entry) ap) \/
         (exists err, refused_at E d (ticks s) i (Name entry) err))
  end.
Proof.
  intros s0.
  destruct (os_ReadDir E (flag_askDir E)) as [err|d] eqn:Hdir.
  - rewrite NewAskers_run, Hdir. split; [reflexivity|]. intros name.
    cbn [fst]. unfold Find. rewrite lookup_empty. reflexivity.
  - split; [|split].
    + intros name ap. rewrite NewAskers_lookup. split.
      * intros (d' & i & Hd' & Hv). rewrite Hdir in Hd'. injection Hd' as <-.
        exists i. apply valid_at_prompt_at in Hv. exact Hv.
      * intros [i Hi]. exists d, i. split; [exact Hdir|].
        apply valid_at_prompt_at. exact Hi.
    + intros i name err Hr. rewrite NewAskers_run, Hdir.
      apply (NewAskers_range_logs E d ∅ s0 i name err).
      apply refused_at_rejected_at. exact Hr.
    + intros i entry He Hc. unfold candidate in Hc.
      apply andb_prop in Hc as [Hp Hd]. apply negb_true_iff in Hd.
      unfold prompt_at, refused_at.
      destruct (ini_Load E (filepath_Join E (flag_askDir E) (Name entry)))
        as [e|f] eqn:Hload.
      { right. exists (External e), entry. repeat (split; [auto; fail|]). reflexivity. }
      destruct (decide (ini_String f "Ask" "Message" = "")) as [Hm|Hm].
      { right. eexists. exists entry.
        repeat (split; [auto; fail|]). left. split; [exact Hm|reflexivity]. }
      destruct (decide (ini_String f "Ask" "Socket" = "")) as [Hs|Hs].
      { right. eexists. exists entry.
        repeat (split; [auto; fail|]). right. left.
        split; [exact Hm|]. split; [exact Hs|reflexivity]. }
      set (ap := descriptor_of E
                   (filepath_Join E (flag_askDir E) (Name entry)) f).
      destruct (decide (NotAfter ap = 0)) as [Hz|Hz].
      { left. exists ap, entry, f. repeat (split; [auto; fail|]).
        left. exact Hz. }
      destruct (Z.lt_ge_cases (NotAfter ap) (checked_at E d (ticks s) i))
        as [Hlt|Hge].
      * right. eexists. exists entry.
        repeat (split; [auto; fail|]). right. right.
        repeat (split; [assumption|]). reflexivity.
      * left. exists ap, entry, f. repeat (split; [auto; fail|]).
        right. exact Hge.
Qed.

(** C5. [IsExpired] returns no error when [NotAfter] is unset, and does
    not read the clock.  When it is set, [IsExpired] returns no error as
    long as the clock does not read later than [NotAfter], at the very
    instant [NotAfter] too, and an error that wraps [ErrExpired] once the
    clock reads strictly later: it reports expiry exactly then.
    [NewAskpass] returns that error in place of a descriptor that has
    expired, and whatever a registry holds has no expiry time or one that
    is not before the clock reading taken for it, so that a descriptor
    that has expired at every reading is in no registry. *)
Theorem IsExpired_strict (a : Askpass) (s : State) :
  let now := time_clock E (ticks s) in
  (NotAfter a = 0 -> IsExpired E a s = (None, s)) /\
  (NotAfter a <> 0 ->
   (now <= NotAfter a -> fst (IsExpired E a s) = None) /\
   (NotAfter a < now ->
    exists err, fst (IsExpired E a s) = Some err /\
                errors_Is err ErrExpired = true)) /\
  (fst (IsExpired E a s) <> None <-> NotAfter a <> 0 /\ NotAfter a < now) /\
  (now = NotAfter a -> fst (IsExpired E a s) = None) /\
  (forall name f,
     ini_Load E (filepath_Join E (flag_askDir E) name) = inr f ->
     ini_String f "Ask" "Message" <> "" ->
     ini_String f "Ask" "Socket" <> "" ->
     a = descriptor_of E (filepath_Join E (flag_askDir E) name) f ->
     (NotAfter a <> 0 -> NotAfter a < now ->
      exists err, fst (NewAskpass E name s) = Err err /\
                  errors_Is err ErrExpired = true) /\
     (NotAfter a = 0 \/ now <= NotAfter a ->
      fst (NewAskpass E name s) = Ok a)) /\
  (forall name,
     fst (NewAskers E s) !! name = Some a ->
     exists d i, os_ReadDir E (flag_askDir E) = inr d /\
                 (NotAfter a = 0 \/
                  checked_at E d (ticks s) i <= NotAfter a)) /\
  (forall name,
     NotAfter a <> 0 -> (forall k, NotAfter a < time_clock E k) ->
     fst (NewAskers E s) !! name <> Some a).
Proof.
  intros now.
  assert (Hlate : NotAfter a <> 0 -> NotAfter a < now ->
                  exists err, fst (IsExpired E a s) = Some err /\
                              errors_Is err ErrExpired = true).
  { intros Hz Hlt. rewrite IsExpired_run. unfold Time_IsZero, Time_After.
    destruct (Z.eqb_spec (NotAfter a) 0); [contradiction|].
    destruct (Z.ltb_spec (NotAfter a) (time_clock E (ticks s)));
      [|unfold now in Hlt; lia].
    eexists. split; reflexivity. }
  assert (Hreg : forall name,
             fst (NewAskers E s) !! name = Some a ->
             exists d i, os_ReadDir E (flag_askDir E) = inr d /\
                         (NotAfter a = 0 \/
                          checked_at E d (ticks s) i <= NotAfter a)).
  { intros name Hl. apply NewAskers_lookup in Hl as (d & i & Hd & Hv).
    apply valid_at_prompt_at in Hv.
    destruct Hv as (entry & f & _ & _ & _ & _ & _ & _ & _ & _ & Hexp).
    exists d, i. split; [exact Hd|exact Hexp]. }
  split; [|split; [|split; [|split; [|split; [|split]]]]].
  - intros Hz. rewrite IsExpired_run. unfold Time_IsZero. rewrite Hz.
    reflexivity.
  - intros Hz. split; [|apply Hlate; exact Hz].
    intros Hle. apply IsExpired_None. right. exact Hle.
  - split.
    + intros Hsome.
      destruct (decide (NotAfter a = 0)) as [Hz|Hz].
      { exfalso. apply Hsome. apply IsExpired_None. left. exact Hz. }
      split; [exact Hz|].
      destruct (Z.lt_ge_cases (NotAfter a) now) as [|Hge]; [assumption|].
      exfalso. apply Hsome. apply IsExpired_None. right. unfold now in Hge.
      lia.
    + intros [Hz Hlt] Hnone. destruct (Hlate Hz Hlt) as (err & Herr & _).
      congruence.
  - intros Heq. apply IsExpired_None. right. unfold now in Heq. lia.
  - intros name f Hf Hm Hs Ha.
    assert (Hpar : parsed E (ask_path E name) = (a, None)).
    { apply parsed_descriptor. exists f. auto. }
    split.
    + intros Hz Hlt. destruct (Hlate Hz Hlt) as (err & Herr & Hkind).
      exists err. split; [|exact Hkind].
      rewrite NewAskpass_run, Hpar.
      rewrite (IsExpired_ticks E a s (push (EvLoad (ask_path E name)) s))
        in Herr by reflexivity.
      destruct (IsExpired E a (push (EvLoad (ask_path E name)) s))
        as [[err'|] s']; cbn [fst] in *; congruence.
    + intros Hok. apply NewAskpass_Ok. split; [exact Hpar|].
      apply IsExpired_None. exact Hok.
  - exact Hreg.
  - intros name Hz Hall Hl. destruct (Hreg name Hl) as (d & i & _ & [H0|Hle]).
    + contradiction.
    + unfold checked_at in Hle. specialize (Hall (ticks s +
        length (List.filter (timed E) (take i d)))%nat). lia.
Qed.

End RegistryTheory.

(** ** The relay on sockets that keep the contract of their writes *)

Section RelayTheory.

Variable E : Env.


End RelayTheory.

(** ** The relay and the registry in the concrete worlds *)



Lemma NewAskers_exact_witness :
  fst (NewAskers test_env state0) !! "ask.abc123" = Some abc123 /\
  fst (NewAskers test_env state0) !! "ask.old" = None /\
  exists tr,
    effects_since (push (EvReadDir (flag_askDir test_env)) state0)
      (snd (NewAskers test_env state0)) tr /\
    EvLogErr (Errorf_w ErrExpired ": current time (T) > NotAfter (T)") ∈ tr.
Proof.
  pose proof (NewAskers_exact test_env state0) as H. cbv zeta in H.
  rewrite test_listing_ReadDir in H. destruct H as (Hiff & Hlog & _).
  split; [|split].
  - apply Hiff. exists 0%nat, {| Name := "ask.abc123"; IsDir := false |},
      (ini_Ask [("Message", "Enter passphrase"); ("Socket", "/tmp/test.sock")]).
    split; [reflexivity|]. split; [reflexivity|]. split; [reflexivity|].
    split; [reflexivity|]. split; [reflexivity|].
    split; [vm_compute; discriminate|]. split; [vm_compute; discriminate|].
    split; [vm_compute; reflexivity|]. left. vm_compute. reflexivity.
  - destruct (fst (NewAskers test_env state0) !! "ask.old") as [ap|] eqn:Hl;
      [exfalso|reflexivity].
    apply Hiff in Hl
      as (i & entry & f & _ & _ & _ & _ & Hf & _ & _ & -> & Hexp).
    vm_compute in Hf. injection Hf as <-.
    destruct Hexp as [Hz|Hle].
    + vm_compute in Hz. discriminate.
    + unfold checked_at in Hle. cbn [time_clock test_env test_env_with] in Hle.
      vm_compute in Hle. apply Hle. reflexivity.
  - apply (Hlog 4%nat "ask.old").
    exists {| Name := "ask.old"; IsDir := false |}.
    split; [reflexivity|]. split; [reflexivity|]. split; [reflexivity|].
    split; [reflexivity|].
    change (ini_Load test_env
              (filepath_Join test_env (flag_askDir test_env) "ask.old"))
      with (@inr ExtError IniFile
              (ini_Ask [("Message", "Enter passphrase");
                        ("Socket", "/tmp/old.sock");
                        ("NotAfter", "T500")])).
    cbv beta iota zeta. right. right.
    split; [vm_compute; discriminate|]. split; [vm_compute; discriminate|].
    split; [vm_compute; discriminate|]. split; [vm_compute; reflexivity|].
    vm_compute. reflexivity.
Defined.

Lemma IsExpired_strict_witness :
  (exists err, fst (IsExpired test_env old state0) = Some err /\
               errors_Is err ErrExpired = true) /\
  fst (IsExpired ticking_env old state0) = None /\
  fst (NewAskers test_env state0) !! "ask.old" <> Some old.
Proof.
  destruct (IsExpired_strict test_env old state0)
    as (_ & Hset & _ & _ & _ & _ & Hout).
  destruct (IsExpired_strict ticking_env old state0) as (_ & Hset' & _).
  cbv zeta in *. split; [|split].
  - apply Hset; [discriminate|]. vm_compute. reflexivity.
  - apply Hset'; [discriminate|]. vm_compute. discriminate.
  - apply Hout; [discriminate|]. intros k. vm_compute. reflexivity.
Defined.
